(** * weathermin: the radar frame cache, snowfall fusion, playback and
      classification logic of [src/App.jsx], embedded and verified.

    Integers of the program (Unix seconds, frame indices) are [Z]; the
    numbers of the weather series (snowfall, AQI, UV index) are rationals
    [Q], on which comparison and maximum agree with the program's numbers;
    a JS [Map] is a [gmap]; the [try]/[catch] blocks around [localStorage]
    are written in a small state-and-exception monad. *)

From Stdlib Require Import ZArith QArith Qminmax Lqa String Ascii
  DecimalString Qround.
From stdpp Require Import gmap strings list sorting.

Local Open Scope Z_scope.

(** ** Frames and the frame cache ([fetchFrames] of [RadarTab], [fetchRadar]
       of [MiniRadar]) *)

(** [Frame = { time: number (unix seconds), path: string }]. *)
Record frame : Type := Frame { time : Z; path : string }.

#[global] Instance frame_eq_dec : EqDecision frame.
Proof. solve_decision. Defined.

Module FrameCache.

(** [const MAX_AGE_HOURS = 4], [const MAX_AGE_SECONDS = MAX_AGE_HOURS * 60 * 60]. *)
Definition MAX_AGE_HOURS : Z := 4.
Definition MAX_AGE_SECONDS : Z := MAX_AGE_HOURS * 60 * 60.

(** [data.radar.past.concat(data.radar.nowcast || [])]: the fresh batch, the
    past frames followed by the forecast ones. *)
Definition newFrames (past : list frame) (nowcast : option (list frame))
  : list frame :=
  past ++ default [] nowcast.

(** [cachedFrames.forEach(f => { if (f.time >= cutoff) frameMap.set(f.time, f) })] *)
Definition add_cached (cutoff : Z) (frameMap : gmap Z frame) (f : frame)
  : gmap Z frame :=
  if bool_decide (cutoff ≤ time f) then <[time f := f]> frameMap else frameMap.

(** [newFrames.forEach(f => frameMap.set(f.time, f))] *)
Definition add_new (frameMap : gmap Z frame) (f : frame) : gmap Z frame :=
  <[time f := f]> frameMap.

(** The [frameMap] after both [forEach] loops, started from [new Map()]. *)
Definition frameMap (cachedFrames newFrames : list frame) (cutoff : Z)
  : gmap Z frame :=
  foldl add_new (foldl (add_cached cutoff) ∅ cachedFrames) newFrames.

(** The comparator [(a, b) => a.time - b.time] orders by [time]. *)
Definition by_time (a b : frame) : Prop := time a ≤ time b.

#[global] Instance by_time_dec : RelDecision by_time.
Proof. intros a b. unfold by_time. apply _. Defined.

(** [Array.from(frameMap.values()).sort((a, b) => a.time - b.time)].  The
    keys of the map are the times of its values, so the values have distinct
    times and the sorted array does not depend on the order in which the map
    lists them (lemma [sorted_values_unique] below). *)
Definition sorted_values (m : gmap Z frame) : list frame :=
  merge_sort by_time (map_to_list m).*2.

(** The merge of [fetchFrames]: [cutoff = now - MAX_AGE_SECONDS], the two
    loops, then the sort.  The result is [allFrames]. *)
Definition merge (cachedFrames newFrames : list frame) (now maxAgeSeconds : Z)
  : list frame :=
  let cutoff := now - maxAgeSeconds in
  sorted_values (frameMap cachedFrames newFrames cutoff).

(** [allFrames.filter(f => f.time <= now)], the array handed to
    [JSON.stringify] and [localStorage.setItem]. *)
Definition persisted (allFrames : list frame) (now : Z) : list frame :=
  filter (λ f, time f ≤ now) allFrames.

(** The last frame of [l] whose time is [t]: the one a sequence of
    [Map.set] calls leaves under key [t]. *)
Definition latest (t : Z) (l : list frame) : option frame :=
  last (filter (λ f, time f = t) l).

End FrameCache.

(** ** [localStorage] and the [try]/[catch] blocks of [fetchFrames] *)

Module Storage.

(** How a block of statements ends: normally with a value, or by an
    exception. *)
Inductive outcome (A : Type) : Type :=
  | Returned (a : A)
  | Thrown.
Arguments Returned {A} a.
Arguments Thrown {A}.

(** An element of a parsed array, by what the loop over the cached frames
    does with it: [Null] is [null], on which reading [f.time] raises a
    [TypeError]; [NoTime] is a value whose [time] is [undefined] (a number,
    a string, a boolean, an array, an object without that property), for
    which [f.time >= cutoff] is false; [AFrame f] is a frame object.  A
    value whose [time] is present without being a number is not
    represented. *)
Inductive element : Type :=
  | Null
  | NoTime
  | AFrame (f : frame).

(** The value [JSON.parse] returns: an array, or a value that has no
    [forEach] ([null], a number, a string, a boolean, an object). *)
Inductive value : Type :=
  | Array (elems : list element)
  | NotArray.

(** The string held under a storage key, seen through what the program does
    with it: [Empty] is the empty string (falsy in [if (cached)]), [Json v]
    is a text that [JSON.parse] reads as [v], [Malformed] is any text on
    which [JSON.parse] throws a [SyntaxError]. *)
Inductive text : Type :=
  | Empty
  | Json (v : value)
  | Malformed.

(** The output of [JSON.stringify] on an array of frames; [JSON.parse] reads
    it back as that array. *)
Definition Serialized (frames : list frame) : text :=
  Json (Array (AFrame <$> frames)).

(** The ways the browser can fail the program: [getItem] throws (storage
    access denied), [JSON.stringify] throws, [setItem] throws (quota). *)
Record faults : Type := Faults {
  getItem_throws : bool;
  stringify_throws : bool;
  setItem_throws : bool
}.

(** Statements run on the contents of [localStorage]. *)
Definition M (A : Type) : Type :=
  gmap string text → outcome A * gmap string text.

Definition ret {A} (a : A) : M A := λ s, (Returned a, s).

Definition throw {A} : M A := λ s, (Thrown, s).

Definition bind {A B} (m : M A) (k : A → M B) : M B :=
  λ s, match m s with
       | (Returned a, s') => k a s'
       | (Thrown, s') => (Thrown, s')
       end.

(** [try { body } catch (e) { handler }] *)
Definition try_catch {A} (body handler : M A) : M A :=
  λ s, match body s with
       | (Returned a, s') => (Returned a, s')
       | (Thrown, s') => handler s'
       end.

Notation "'let!' x ':=' m 'in' k" := (bind m (λ x, k))
  (at level 10, x pattern, m at level 200, k at level 200).

(** [localStorage.getItem(key)]: [null] when the key is absent. *)
Definition getItem (fl : faults) (key : string) : M (option text) :=
  λ s, if getItem_throws fl then (Thrown, s) else (Returned (s !! key), s).

(** [localStorage.setItem(key, value)] *)
Definition setItem (fl : faults) (key : string) (value : text) : M unit :=
  λ s, if setItem_throws fl then (Thrown, s)
       else (Returned tt, <[key := value]> s).

Definition JSON_parse (c : text) : M value :=
  match c with
  | Json v => ret v
  | Empty | Malformed => throw
  end.

Definition JSON_stringify (fl : faults) (l : list frame) : M text :=
  if stringify_throws fl then throw else ret (Serialized l).

(** [[
    let cachedFrames = []
    try {
      const cached = localStorage.getItem(CACHE_KEY)
      if (cached) cachedFrames = JSON.parse(cached)
    } catch (e) {}
    ]]
    [if (cached)] is false on [null] and on the empty string. *)
Definition load_cached (fl : faults) (CACHE_KEY : string) : M value :=
  try_catch
    (let! cached := getItem fl CACHE_KEY in
     match cached with
     | None | Some Empty => ret (Array [])
     | Some c => JSON_parse c
     end)
    (ret (Array [])).

Definition is_null (e : element) : bool :=
  match e with Null => true | _ => false end.

Definition frame_of (e : element) : option frame :=
  match e with AFrame f => Some f | _ => None end.

(** What [cachedFrames.forEach(f => { if (f.time >= cutoff) ... })] meets,
    outside any [try]: a value without [forEach] and a [null] element raise
    a [TypeError]; an element without a time fails the test and is passed
    over; the frame objects are the ones the age test and [frameMap.set]
    run on. *)
Definition cached_frames (v : value) : M (list frame) :=
  match v with
  | NotArray => throw
  | Array elems =>
      if existsb is_null elems then throw else ret (omap frame_of elems)
  end.

(** The cached frames a poll merges with. *)
Definition read_cache (fl : faults) (CACHE_KEY : string) : M (list frame) :=
  let! cachedFrames := load_cached fl CACHE_KEY in
  cached_frames cachedFrames.

(** [[
    try {
      localStorage.setItem(CACHE_KEY,
        JSON.stringify(allFrames.filter(f => f.time <= now)))
    } catch (e) {}
    ]] *)
Definition save_cached (fl : faults) (CACHE_KEY : string)
    (allFrames : list frame) (now : Z) : M unit :=
  try_catch
    (let! s := JSON_stringify fl (FrameCache.persisted allFrames now) in
     setItem fl CACHE_KEY s)
    (ret tt).

(** The body of [fetchFrames] after the manifest has arrived: [newFrames] is
    [data.radar.past.concat(data.radar.nowcast || [])], [now] is
    [Math.floor(Date.now() / 1000)]; the value returned is the argument of
    [setRadarFrames].  [Thrown] is an exception that reaches the outer
    [catch (err)], which logs it and sets no window. *)
Definition fetchFrames (fl : faults) (CACHE_KEY : string)
    (newFrames : list frame) (now : Z) : M (list frame) :=
  let! cachedFrames := read_cache fl CACHE_KEY in
  let allFrames :=
    FrameCache.merge cachedFrames newFrames now FrameCache.MAX_AGE_SECONDS in
  let! _ := save_cached fl CACHE_KEY allFrames now in
  ret allFrames.

(** [const CACHE_KEY = 'radar_frame_cache_full'] in [RadarTab]. *)
Definition CACHE_KEY_full : string := "radar_frame_cache_full".

End Storage.

(** ** Playback ([RadarTab], [MiniRadar]) *)

Module Playback.

(** [currentFrame] and [isPlaying] of [RadarTab]. *)
Record state : Type := State { currentFrame : Z; isPlaying : bool }.

(** [(prev) => (prev + 1) % radarFrames.length]; [%] is the truncated
    remainder. *)
Definition advance (length prev : Z) : Z := Z.rem (prev + 1) length.

(** One firing of the interval of [RadarTab]; the effect installs it only
    past [if (!isPlaying || radarFrames.length === 0) return]. *)
Definition tick (radarFrames : list frame) (st : state) : state :=
  let n := Z.of_nat (length radarFrames) in
  if negb (isPlaying st) || (n =? 0) then st
  else {| currentFrame := advance n (currentFrame st);
          isPlaying := isPlaying st |}.

(** One firing of the interval of [MiniRadar]; installed only past
    [if (radarFrames.length === 0 || !zoomComplete) return]. *)
Definition mini_tick (radarFrames : list frame) (zoomComplete : bool)
    (currentFrame : Z) : Z :=
  let n := Z.of_nat (length radarFrames) in
  if (n =? 0) || negb zoomComplete then currentFrame
  else advance n currentFrame.

(** The [onChange] handler of the timeline scrubber:
    [setCurrentFrame(parseInt(e.target.value)); setIsPlaying(false)];
    [value] is the integer [parseInt] reads. *)
Definition scrub (value : Z) (st : state) : state :=
  {| currentFrame := value; isPlaying := false |}.

(** The scrubber is [<input type="range" min="0" max={radarFrames.length - 1}>]:
    the values the control can hand to [onChange]. *)
Definition slider_range (radarFrames : list frame) (value : Z) : Prop :=
  0 ≤ value ≤ Z.of_nat (length radarFrames) - 1.



(** [setCurrentFrame((prev) => Math.max(0, prev - 1))] *)
Definition skip_back (st : state) : state :=
  {| currentFrame := Z.max 0 (currentFrame st - 1);
     isPlaying := isPlaying st |}.

(** [setCurrentFrame((prev) => Math.min(radarFrames.length - 1, prev + 1))] *)
Definition skip_forward (radarFrames : list frame) (st : state) : state :=
  {| currentFrame :=
       Z.min (Z.of_nat (length radarFrames) - 1) (currentFrame st + 1);
     isPlaying := isPlaying st |}.

End Playback.

(** ** Snowfall fusion ([fetchExtended] of [ModelsTab], [fetchWeatherData]) *)

Module Fusion.

Local Open Scope Q_scope.

(** An element of a series of the model API: a number, or [null] where the
    model has no value ([None]). *)
Definition elem : Type := option Q.

(** [ToNumber] as [Math.max] applies it to its arguments: [null] is [0]. *)
Definition ToNumber (v : elem) : Q :=
  match v with
  | Some x => x
  | None => 0
  end.

(** [Math.max(a, b)] on two numbers. *)
Definition Math_max (a b : Q) : Q :=
  match a ?= b with
  | Lt => b
  | _ => a
  end.

(** [v || 0] where [v] is [series[i]]: [undefined] (index out of range, outer
    [None]), [null] and the number zero are falsy. *)
Definition or_zero (v : option elem) : Q :=
  match v with
  | Some (Some x) => if Qeq_bool x 0 then 0 else x
  | Some None | None => 0
  end.

(** [gfs.map((gfs, i) => Math.max(gfs, gem[i] || 0))] *)
Definition fuse (gfs gem : list elem) : list Q :=
  imap (λ i g, Math_max (ToNumber g) (or_zero (gem !! i))) gfs.

(** What the program reads of a model response: [hourly?.snowfall] and
    [daily?.snowfall_sum], [None] when the field is missing. *)
Record response : Type := Response {
  hourly_snowfall : option (list elem);
  daily_snowfall_sum : option (list elem)
}.

(** [if (gem.f && gfs.f) gfs.f = gfs.f.map(...)]: an array is truthy. *)
Definition fuse_field (gfs gem : option (list elem)) : option (list elem) :=
  match gem, gfs with
  | Some e, Some g => Some (Some <$> fuse g e)
  | _, _ => gfs
  end.

(** The data [fetchExtended] hands to [setExtendedData] when [gfsRes.ok];
    [gemData] is [None] when [gemRes.ok] is false. *)
Definition fetchExtended (gfsData : response) (gemData : option response)
  : response :=
  match gemData with
  | Some gem =>
      {| hourly_snowfall :=
           fuse_field (hourly_snowfall gfsData) (hourly_snowfall gem);
         daily_snowfall_sum :=
           fuse_field (daily_snowfall_sum gfsData) (daily_snowfall_sum gem) |}
  | None => gfsData
  end.

(** The data [fetchWeatherData] hands to [setDailyForecast]: only the daily
    sums are fused there. *)
Definition fetchWeatherData_daily (gfsDaily : response)
    (gemDaily : option response) : response :=
  match gemDaily with
  | Some gem =>
      {| hourly_snowfall := hourly_snowfall gfsDaily;
         daily_snowfall_sum :=
           fuse_field (daily_snowfall_sum gfsDaily) (daily_snowfall_sum gem) |}
  | None => gfsDaily
  end.

End Fusion.

(** ** The model requests and the unit of their snowfall *)

Module Requests.

Local Open Scope string_scope.

(** [`${location.lat}`] and [`${location.lon}`] as they print. *)
Record location : Type := Location { lat : string; lon : string }.

(** [DEFAULT_LOCATION]: Cranberry Township, PA. *)
Definition DEFAULT_LOCATION : location :=
  {| lat := "40.6834"; lon := "-80.1067" |}.

(** The GFS request of [fetchExtended]. *)
Definition gfs_extended_url (loc : location) : string :=
  "https://api.open-meteo.com/v1/gfs?latitude=" +:+ lat loc +:+
  "&longitude=" +:+ lon loc +:+
  "&hourly=temperature_2m,precipitation_probability,precipitation,snowfall," +:+
  "freezing_level_height,snow_depth,wind_speed_10m,wind_gusts_10m,cape,lifted_index," +:+
  "convective_inhibition,visibility" +:+
  "&daily=temperature_2m_max,temperature_2m_min,precipitation_sum,snowfall_sum," +:+
  "precipitation_probability_max" +:+
  "&temperature_unit=fahrenheit&wind_speed_unit=mph&precipitation_unit=inch" +:+
  "&timezone=America/New_York&forecast_days=16".

(** The GEM request of [fetchExtended]. *)
Definition gem_extended_url (loc : location) : string :=
  "https://api.open-meteo.com/v1/gem?latitude=" +:+ lat loc +:+
  "&longitude=" +:+ lon loc +:+
  "&hourly=snowfall" +:+
  "&daily=snowfall_sum" +:+
  "&timezone=America/New_York&forecast_days=16".

(** The daily GFS request of [fetchWeatherData]; [cacheBust] is
    [`&_t=${Date.now()}`]. *)
Definition gfs_daily_url (loc : location) (cacheBust : string) : string :=
  "https://api.open-meteo.com/v1/gfs?latitude=" +:+ lat loc +:+
  "&longitude=" +:+ lon loc +:+
  "&daily=weather_code,temperature_2m_max,temperature_2m_min,apparent_temperature_max," +:+
  "apparent_temperature_min,precipitation_sum,precipitation_probability_max," +:+
  "snowfall_sum,wind_speed_10m_max,wind_gusts_10m_max,wind_direction_10m_dominant," +:+
  "uv_index_max,sunrise,sunset" +:+
  "&current=uv_index,visibility,dew_point_2m" +:+
  "&temperature_unit=fahrenheit&wind_speed_unit=mph&precipitation_unit=inch" +:+
  "&timezone=America/New_York&forecast_days=16" +:+
  cacheBust.

(** The daily GEM request of [fetchWeatherData]. *)
Definition gem_daily_url (loc : location) (cacheBust : string) : string :=
  "https://api.open-meteo.com/v1/gem?latitude=" +:+ lat loc +:+
  "&longitude=" +:+ lon loc +:+
  "&daily=snowfall_sum" +:+
  "&timezone=America/New_York&forecast_days=16" +:+
  cacheBust.

(** [s.includes(sub)] *)
Definition includes (sub s : string) : bool :=
  match String.index 0 sub s with
  | Some _ => true
  | None => false
  end.

Inductive length_unit : Type := Inch | Centimetre.

(** The unit in which the model API answers a snowfall request: its native
    centimetres (the unit every consumer of the program divides by [2.54],
    "cm to inches"), inches when the request carries
    [precipitation_unit=inch]. *)
Definition snowfall_unit (url : string) : length_unit :=
  if includes "&precipitation_unit=inch" url then Inch else Centimetre.

End Requests.

(** ** Classification bands ([getAqiLevel], [getUvLevel]) *)

Module Levels.

Local Open Scope Q_scope.

(** The object a classifier returns; [getUvLevel] sets no [bg]. *)
Record level : Type := Level {
  label : string;
  color : string;
  bg : option string
}.

Definition getAqiLevel (aqi : Q) : level :=
  if Qle_bool aqi 50 then
    {| label := "Good"; color := "text-emerald-400";
       bg := Some "bg-emerald-500/20"%string |}
  else if Qle_bool aqi 100 then
    {| label := "Moderate"; color := "text-yellow-400";
       bg := Some "bg-yellow-500/20"%string |}
  else if Qle_bool aqi 150 then
    {| label := "Unhealthy for Sensitive"; color := "text-orange-400";
       bg := Some "bg-orange-500/20"%string |}
  else if Qle_bool aqi 200 then
    {| label := "Unhealthy"; color := "text-red-400";
       bg := Some "bg-red-500/20"%string |}
  else if Qle_bool aqi 300 then
    {| label := "Very Unhealthy"; color := "text-purple-400";
       bg := Some "bg-purple-500/20"%string |}
  else
    {| label := "Hazardous"; color := "text-rose-400";
       bg := Some "bg-rose-500/20"%string |}.

Definition getUvLevel (uv : Q) : level :=
  if Qle_bool uv 2 then
    {| label := "Low"; color := "text-emerald-400"; bg := None |}
  else if Qle_bool uv 5 then
    {| label := "Moderate"; color := "text-yellow-400"; bg := None |}
  else if Qle_bool uv 7 then
    {| label := "High"; color := "text-orange-400"; bg := None |}
  else if Qle_bool uv 10 then
    {| label := "Very High"; color := "text-red-400"; bg := None |}
  else
    {| label := "Extreme"; color := "text-purple-400"; bg := None |}.

End Levels.

(** ** The cache key of [MiniRadar] *)

Module MiniRadar.

(** [const CACHE_KEY = 'radar_frame_cache'] in [MiniRadar]. *)
Definition CACHE_KEY : string := "radar_frame_cache".

End MiniRadar.

(** ** Timelines *)

Module Timeline.

(** A list of frames whose times strictly increase: what the frame-cache
    merge produces and what a frame manifest lists. *)
Definition ascending (l : list frame) : Prop :=
  StronglySorted (λ a b : frame, time a < time b) l.

End Timeline.

(** ** The radar view of [RadarTab]: frame lookup, tile URLs, the closest
       satellite frame and the playback controls as a state machine *)

Module RadarView.

Import Playback.

(** [radarFrames[currentFrame]]: [undefined] outside the array. *)
Definition frame_at (radarFrames : list frame) (currentFrame : Z)
  : option frame :=
  if currentFrame <? 0 then None else radarFrames !! Z.to_nat currentFrame.

(** [[
    const currentRadarUrl = radarFrames[currentFrame]
      ? `https://tilecache.rainviewer.com${radarFrames[currentFrame].path}/256/{z}/{x}/{y}/4/1_1.png`
      : null
    ]] *)
Definition currentRadarUrl (radarFrames : list frame) (currentFrame : Z)
  : option string :=
  match frame_at radarFrames currentFrame with
  | Some f =>
      Some ("https://tilecache.rainviewer.com" +:+ path f
            +:+ "/256/{z}/{x}/{y}/4/1_1.png")
  | None => None
  end.

(** [(prev, curr) => Math.abs(curr.time - targetTime)
                      < Math.abs(prev.time - targetTime) ? curr : prev] *)
Definition closer (targetTime : Z) (prev curr : frame) : frame :=
  if Z.abs (time curr - targetTime) <? Z.abs (time prev - targetTime)
  then curr else prev.

(** [satelliteFrames.reduce(...)] without an initial value: the fold starts
    from the first element; the program calls it on a non-empty array only
    ([None] stands for the guarded empty case). *)
Definition closest (targetTime : Z) (satelliteFrames : list frame)
  : option frame :=
  match satelliteFrames with
  | [] => None
  | first :: rest => Some (foldl (closer targetTime) first rest)
  end.

(** [[
    if (!satelliteFrames.length || !radarFrames[currentFrame]) return null
    const targetTime = radarFrames[currentFrame].time
    const closest = satelliteFrames.reduce(...)
    return `https://tilecache.rainviewer.com${closest.path}/256/{z}/{x}/{y}/0/0_0.png`
    ]] *)
Definition currentSatelliteUrl (satelliteFrames radarFrames : list frame)
    (currentFrame : Z) : option string :=
  match frame_at radarFrames currentFrame with
  | None => None
  | Some r =>
      match closest (time r) satelliteFrames with
      | None => None
      | Some c =>
          Some ("https://tilecache.rainviewer.com" +:+ path c
                +:+ "/256/{z}/{x}/{y}/0/0_0.png")
      end
  end.

(** The state of the radar view: the window and the playback state. *)
Record view : Type := View {
  radarFrames : list frame;
  playback : state
}.

(** [useState([])], [useState(0)], [useState(false)]. *)
Definition initial : view :=
  {| radarFrames := []; playback := {| currentFrame := 0; isPlaying := false |} |}.

(** What can happen to the view: a poll delivers a window, the interval
    fires, or the user presses a control. *)
Inductive action : Type :=
  | Refresh (allFrames : list frame)
  | Tick
  | TogglePlay
  | SkipBack
  | SkipForward
  | Scrub (value : Z).

(** The handlers.  [Refresh] is [setRadarFrames(allFrames);
    setCurrentFrame(0)]; [TogglePlay] is [setIsPlaying(!isPlaying)]; the skip
    buttons are [disabled] when [currentFrame === 0], respectively
    [currentFrame === radarFrames.length - 1]. *)
Definition step (a : action) (v : view) : view :=
  let st := playback v in
  match a with
  | Refresh allFrames =>
      {| radarFrames := allFrames;
         playback := {| currentFrame := 0; isPlaying := isPlaying st |} |}
  | Tick => {| radarFrames := radarFrames v;
               playback := tick (radarFrames v) st |}
  | TogglePlay =>
      {| radarFrames := radarFrames v;
         playback := {| currentFrame := currentFrame st;
                        isPlaying := negb (isPlaying st) |} |}
  | SkipBack =>
      {| radarFrames := radarFrames v;
         playback := if currentFrame st =? 0 then st else skip_back st |}
  | SkipForward =>
      {| radarFrames := radarFrames v;
         playback :=
           if currentFrame st =? Z.of_nat (length (radarFrames v)) - 1
           then st else skip_forward (radarFrames v) st |}
  | Scrub value => {| radarFrames := radarFrames v;
                      playback := scrub value st |}
  end.

(** The slider hands only values of its range to the scrub handler. *)
Definition allowed (a : action) (v : view) : Prop :=
  match a with
  | Scrub value => slider_range (radarFrames v) value
  | _ => True
  end.

(** The views the component can be in. *)
Inductive reachable : view → Prop :=
  | reachable_initial : reachable initial
  | reachable_step a v : reachable v → allowed a v → reachable (step a v).

End RadarView.

(** ** Alerts: the overlay poll and the alert styles ([fetchAlerts],
       [getAlertStyle]) *)

Module Alerts.

(** What the program reads of a GeoJSON feature: [properties?.event],
    [properties?.severity] ([None] when missing) and whether [geometry] is
    an object ([true]) or [null]. *)
Record feature : Type := Feature {
  event : option string;
  severity : option string;
  geometry : bool
}.

(** How a request ends: [fetch] or [res.json()] throws, the response is not
    [ok], or it is [ok] with [data.features] ([None] when the field is
    missing). *)
Inductive response : Type :=
  | Throws
  | NotOk
  | Ok (features : option (list feature)).

(** [data.features?.filter(f => f.geometry) || []] *)
Definition featuresWithGeometry (features : option (list feature))
  : list feature :=
  match features with
  | Some fs => filter (λ f, geometry f = true) fs
  | None => []
  end.

(** One run of [fetchAlerts]: [prev] is the collection in [alertsGeoJson]
    before the run ([None] is the initial [null]), [point] the outcome of
    the point request, [state] the outcome of the state-wide request (sent
    only when the point request gave no feature with a geometry); the
    result is [alertsGeoJson] after the run.  An exception is caught and
    logged, and sets nothing. *)
Definition fetchAlerts (prev : option (list feature)) (point state : response)
  : option (list feature) :=
  match point with
  | Ok data =>
      let withGeometry := featuresWithGeometry data in
      if (0 <? length withGeometry)%nat then Some withGeometry
      else match state with
           | Ok stateData => Some (featuresWithGeometry stateData)
           | NotOk | Throws => prev
           end
  | NotOk | Throws => prev
  end.

(** [c.toLowerCase()] on an ASCII character. *)
Definition lower_char (c : ascii) : ascii :=
  let n := nat_of_ascii c in
  if ((65 <=? n) && (n <=? 90))%nat then ascii_of_nat (n + 32) else c.

(** [s.toLowerCase()] on ASCII text. *)
Fixpoint toLowerCase (s : string) : string :=
  match s with
  | EmptyString => EmptyString
  | String c rest => String (lower_char c) (toLowerCase rest)
  end.

(** [x?.toLowerCase() || ''] *)
Definition lower_or_empty (x : option string) : string :=
  match x with
  | Some s => toLowerCase s
  | None => EmptyString
  end.

(** The Leaflet path options [getAlertStyle] returns. *)
Record style : Type := Style {
  color : string;
  fillColor : string;
  fillOpacity : Q;
  weight : Z
}.

Definition getAlertStyle (f : feature) : style :=
  let event := lower_or_empty (event f) in
  let severity := lower_or_empty (severity f) in
  if Requests.includes "warning" event || String.eqb severity "extreme"
     || String.eqb severity "severe" then
    {| color := "#ef4444"; fillColor := "#ef4444";
       fillOpacity := 0.3; weight := 2 |}
  else if Requests.includes "watch" event then
    {| color := "#f97316"; fillColor := "#f97316";
       fillOpacity := 0.25; weight := 2 |}
  else if Requests.includes "advisory" event
          || String.eqb severity "moderate" then
    {| color := "#eab308"; fillColor := "#eab308";
       fillOpacity := 0.2; weight := 2 |}
  else
    {| color := "#3b82f6"; fillColor := "#3b82f6";
       fillOpacity := 0.15; weight := 1 |}.

End Alerts.

(** ** Weather codes ([getWeatherDescription], [getWeatherIconFromCode] and
       the code tests of [HourlyStrip] and [WeatherBrief]) *)

Module WeatherCodes.

(** The [descriptions] object of [getWeatherDescription]. *)
Definition descriptions : list (Z * string) :=
  [ (0, "Clear sky");
    (1, "Mainly clear"); (2, "Partly cloudy"); (3, "Overcast");
    (45, "Foggy"); (48, "Depositing rime fog");
    (51, "Light drizzle"); (53, "Moderate drizzle"); (55, "Dense drizzle");
    (61, "Slight rain"); (63, "Moderate rain"); (65, "Heavy rain");
    (66, "Light freezing rain"); (67, "Heavy freezing rain");
    (71, "Slight snow"); (73, "Moderate snow"); (75, "Heavy snow");
    (77, "Snow grains");
    (80, "Slight rain showers"); (81, "Moderate rain showers");
    (82, "Violent rain showers");
    (85, "Slight snow showers"); (86, "Heavy snow showers");
    (95, "Thunderstorm"); (96, "Thunderstorm with slight hail");
    (99, "Thunderstorm with heavy hail") ]%string.

(** [descriptions[code]], [undefined] for a key the object does not have. *)
Fixpoint property (table : list (Z * string)) (code : Z) : option string :=
  match table with
  | [] => None
  | (k, v) :: rest => if k =? code then Some v else property rest code
  end.

(** [descriptions[code] || 'Unknown']: every description is a non-empty
    string, so only a missing key gives ['Unknown']. *)
Definition getWeatherDescription (code : Z) : string :=
  match property descriptions code with
  | Some d => if String.eqb d "" then "Unknown" else d
  | None => "Unknown"
  end.

(** The icon components. *)
Inductive icon : Type := Sun | Cloud | CloudRain | CloudSnow | CloudLightning.

(** [codes.includes(code)] *)
Definition includes (codes : list Z) (code : Z) : bool :=
  existsb (Z.eqb code) codes.

Definition getWeatherIconFromCode (code : Z) : icon :=
  if includes [71; 73; 75; 77; 85; 86] code then CloudSnow
  else if includes [61; 63; 65; 66; 67; 80; 81; 82] code then CloudRain
  else if includes [95; 96; 99] code then CloudLightning
  else if includes [2; 3; 45; 48] code then Cloud
  else Sun.

(** [isSnowy] of [HourlyStrip], [TenDayStrip] and [CalendarMonth],
    [isSnowing] of [WeatherBrief]. *)
Definition isSnowy (weatherCode : Z) : bool :=
  includes [71; 73; 75; 77; 85; 86] weatherCode.

(** [isRainy] of [HourlyStrip]. *)
Definition isRainy (weatherCode : Z) : bool :=
  includes [51; 53; 55; 61; 63; 65; 80; 81; 82] weatherCode.

(** [isRaining] of [WeatherBrief]. *)
Definition isRaining (weatherCode : Z) : bool :=
  includes [51; 53; 55; 56; 57; 61; 63; 65; 80; 81; 82] weatherCode.

(** [isStormy] of [WeatherBrief]. *)
Definition isStormy (weatherCode : Z) : bool :=
  includes [95; 96; 99] weatherCode.

End WeatherCodes.

(** ** The labels of [QuickStats] ([getAqiLabel], [getUvLabel]) *)

Module QuickStats.

Local Open Scope Q_scope.

(** The object the label functions return. *)
Record info : Type := Info { label : string; color : string }.

(** [aqi] is [airQuality?.current?.us_aqi]: [None] when it is missing;
    [!aqi] holds for a missing value and for zero. *)
Definition getAqiLabel (aqi : option Q) : info :=
  match aqi with
  | None => {| label := "--"; color := "text-slate-400" |}
  | Some aqi =>
      if Qeq_bool aqi 0 then {| label := "--"; color := "text-slate-400" |}
      else if Qle_bool aqi 50 then
        {| label := "Good"; color := "text-green-500" |}
      else if Qle_bool aqi 100 then
        {| label := "Moderate"; color := "text-yellow-500" |}
      else if Qle_bool aqi 150 then
        {| label := "Unhealthy*"; color := "text-orange-500" |}
      else if Qle_bool aqi 200 then
        {| label := "Unhealthy"; color := "text-red-500" |}
      else {| label := "Hazardous"; color := "text-purple-500" |}
  end.

Definition getUvLabel (uv : Q) : info :=
  if Qle_bool uv 2 then {| label := "Low"; color := "text-green-500" |}
  else if Qle_bool uv 5 then
    {| label := "Moderate"; color := "text-yellow-500" |}
  else if Qle_bool uv 7 then
    {| label := "High"; color := "text-orange-500" |}
  else if Qle_bool uv 10 then
    {| label := "Very High"; color := "text-red-500" |}
  else {| label := "Extreme"; color := "text-purple-500" |}.

End QuickStats.

(** ** Array helpers of the platform *)

Module Arrays.

(** [arr.findIndex(p)]: the first index at which [p] holds, [-1] when there
    is none. *)
Fixpoint findIndex {A} (p : A → bool) (arr : list A) : Z :=
  match arr with
  | [] => -1
  | x :: rest =>
      if p x then 0
      else let i := findIndex p rest in if i <? 0 then -1 else i + 1
  end.

(** [arr.slice(start, end)], with the relative indices of the language: a
    negative index counts from the end, and both are clamped to the
    array. *)
Definition slice {A} (arr : list A) (start stop : Z) : list A :=
  let len := Z.of_nat (length arr) in
  let k := if start <? 0 then Z.max (len + start) 0 else Z.min start len in
  let final := if stop <? 0 then Z.max (len + stop) 0 else Z.min stop len in
  take (Z.to_nat (final - k)) (drop (Z.to_nat k) arr).

(** [`${n}`] for an integer [n]. *)
Definition string_of_Z (n : Z) : string := NilZero.string_of_int (Z.to_int n).

End Arrays.

(** ** The hourly strip ([HourlyStrip]) *)

Module HourlyStrip.

Import Arrays.

(** [hourly.time.findIndex(t => ...) || 0], where [matches t] is the test
    "[t] is an hour of today not before the current hour": [|| 0] replaces
    only the index [0], [-1] is truthy. *)
Definition startIdx {A} (matches : A → bool) (time : list A) : Z :=
  let i := findIndex matches time in
  if i =? 0 then 0 else i.

(** [hourly.time.slice(startIdx, startIdx + 24)] *)
Definition hours {A} (matches : A → bool) (time : list A) : list A :=
  slice time (startIdx matches time) (startIdx matches time + 24).

(** The label of an hour:
    [isNow ? 'NOW' : hour === 0 ? '12a' : hour < 12 ? `${hour}a`
     : hour === 12 ? '12p' : `${hour - 12}p`]. *)
Definition hourLabel (isNow : bool) (hour : Z) : string :=
  if isNow then "NOW"
  else if hour =? 0 then "12a"
  else if hour <? 12 then string_of_Z hour +:+ "a"
  else if hour =? 12 then "12p"
  else string_of_Z (hour - 12) +:+ "p".

(** Which of the three precipitation lines an hour shows. *)
Record lines : Type := Lines {
  showSnow : bool;
  showRain : bool;
  showProb : bool
}.

Local Open Scope Q_scope.

(** [[
    const precipitation = hourly.precipitation?.[idx] || 0 // mm
    const snowfall = hourly.snowfall?.[idx] || 0 // cm
    const snowInches = snowfall / 2.54
    const rainInches = precipitation / 25.4
    {snowInches >= 0.1 && ...}
    {rainInches >= 0.01 && !snowInches && ...}
    {precipProb > 30 && !snowInches && rainInches < 0.01 && ...}
    ]]
    The numbers are doubles, and [div] is their division: the quotient
    rounded to a double, which is [0] for a numerator small enough
    ([5e-324 / 2.54] is [0]).  The comparisons of doubles are exact. *)
Definition precipitationLines (div : Q → Q → Q)
    (snowfall precipitation : option Fusion.elem) (precipProb : Q) : lines :=
  let precipitation := Fusion.or_zero precipitation in
  let snowfall := Fusion.or_zero snowfall in
  let snowInches := div snowfall 2.54 in
  let rainInches := div precipitation 25.4 in
  {| showSnow := Qle_bool 0.1 snowInches;
     showRain := Qle_bool 0.01 rainInches && Qeq_bool snowInches 0;
     showProb := negb (Qle_bool precipProb 30) && Qeq_bool snowInches 0
                 && negb (Qle_bool 0.01 rainInches) |}.

End HourlyStrip.

(** ** The clock of the satellite loop ([getTimeFromFrame] of
       [SatelliteLoop]) *)

Module SatelliteLoop.

Import Arrays.

(** [hour % 12 || 12] *)
Definition hour12 (hour : Z) : Z :=
  let r := Z.rem hour 12 in if r =? 0 then 12 else r.

(** [hour >= 12 ? 'PM' : 'AM'] *)
Definition ampm (hour : Z) : string := if 12 <=? hour then "PM" else "AM".

(** [`${hour12}:${minute} ${ampm} UTC`], for the hour and the minute digits
    the pattern finds in the file name. *)
Definition timeLabel (hour : Z) (minute : string) : string :=
  string_of_Z (hour12 hour) +:+ ":" +:+ minute +:+ " " +:+ ampm hour
  +:+ " UTC".

End SatelliteLoop.

(** ** The forecast calendar ([CalendarMonth]) *)

Module CalendarMonth.

(** An entry of [forecastDays]; [dayOfWeek] is [date.getDay()], 0 for
    Sunday to 6 for Saturday. *)
Record forecastDay : Type := ForecastDay {
  dateStr : string;
  dayOfWeek : nat;
  dayNum : Z;
  month : string;
  isToday : bool;
  weatherCode : Z;
  high : Z;
  low : Z;
  snow : Q
}.

(** A cell of the grid: a day, or [null]. *)
Definition cell : Type := option forecastDay.

(** The body of [forecastDays.forEach]:
    [[
    currentWeek.push(day)
    if (currentWeek.length === 7) { result.push(currentWeek); currentWeek = [] }
    ]]
    on the pair of [result] and [currentWeek]. *)
Definition push_day (st : list (list cell) * list cell) (day : forecastDay)
  : list (list cell) * list cell :=
  let currentWeek := st.2 ++ [Some day] in
  if (length currentWeek =? 7)%nat then (st.1 ++ [currentWeek], [])
  else (st.1, currentWeek).

(** The [weeks] grid: empty cells before the first day, the days in rows of
    seven, and empty cells to fill the last row. *)
Definition weeks (forecastDays : list forecastDay) : list (list cell) :=
  match forecastDays with
  | [] => []
  | first :: _ =>
      let firstDayOfWeek := dayOfWeek first in
      let st := foldl push_day ([], replicate firstDayOfWeek None)
                      forecastDays in
      if (0 <? length st.2)%nat
      then st.1 ++ [st.2 ++ replicate (7 - length st.2) None]
      else st.1
  end.

End CalendarMonth.

(** ** The weather brief ([WeatherBrief]) *)

Module WeatherBrief.

Import WeatherCodes.

Local Open Scope Q_scope.

(** [Math.round(x)]: the nearest integer, halves go up. *)
Definition Math_round (x : Q) : Z := Qfloor (x + (1 # 2)).

(** The fields the brief reads of [modelData.current],
    [dailyForecast.daily], [dailyForecast.current] and [airQuality]; where
    the program writes [x || 0] or tests [x && ...] the field may be missing
    ([None]). *)
Record inputs : Type := Inputs {
  temperature_2m : Q;
  apparent_temperature : Q;
  weather_code : Z;
  wind_speed_10m : Q;
  uv_index : option Fusion.elem;
  temperature_2m_max : Q;
  temperature_2m_min : Q;
  precipitation_probability_max : option Fusion.elem;
  snowfall_sum : option Fusion.elem;
  us_aqi : option Q;
  visibility : option Q
}.

(** The messages of [warnings], each by its template and the numbers it
    prints:
    - [Frostbite]: `Feels like ${feelsLike}°F with wind chill - frostbite risk`
    - [FeelsLike]: `Feels like ${feelsLike}°F`
    - [SnowHazard]: [snowfall.toFixed(1)], an inch mark,
      ` snow expected - travel may be hazardous`
    - [SnowExtraTime]: [snowfall.toFixed(1)], an inch mark,
      ` snow expected - allow extra travel time`
    - [LightSnow]: `Light snow: `, [snowfall.toFixed(1)], an inch mark,
      ` expected`
    - [Thunderstorms]: 'Thunderstorms - avoid outdoor activities'
    - [StrongWinds]: `Strong winds: ${windSpeed} mph - secure loose items`
    - [Windy]: `Windy: ${windSpeed} mph`
    - [LowVisibility]: 'Low visibility - drive with caution'
    - [PoorAir]: `Poor air quality (AQI ${aqi}) - limit time outdoors`
    - [ModerateAir]:
      `Moderate air quality (AQI ${aqi}) - sensitive groups take care`
    - [VeryHighUV]: `Very high UV (${Math.round(uvIndex)}) - limit sun exposure`
    - [HighUV]: `High UV (${Math.round(uvIndex)}) - seek shade midday` *)
Inductive warning : Type :=
  | Frostbite (feelsLike : Z)
  | FeelsLike (feelsLike : Z)
  | SnowHazard (snowfall : Q)
  | SnowExtraTime (snowfall : Q)
  | LightSnow (snowfall : Q)
  | Thunderstorms
  | StrongWinds (windSpeed : Z)
  | Windy (windSpeed : Z)
  | LowVisibility
  | PoorAir (aqi : Q)
  | ModerateAir (aqi : Q)
  | VeryHighUV (uv : Z)
  | HighUV (uv : Z).

(** The headlines, in the order the program tests for them. *)
Inductive headline : Type :=
  | Storms | SnowDay | BitterCold | Chilly | Hot | RainyDay | RainLikely
  | Beautiful
  | HighLow (todayHigh todayLow : Z).

(** [x && x > bound] on a field that may be missing or zero. *)
Definition present_above (x : option Q) (bound : Q) : bool :=
  match x with
  | Some v => negb (Qeq_bool v 0) && negb (Qle_bool v bound)
  | None => false
  end.

(** [x && x < bound] *)
Definition present_below (x : option Q) (bound : Q) : bool :=
  match x with
  | Some v => negb (Qeq_bool v 0) && negb (Qle_bool bound v)
  | None => false
  end.

Section Brief.

Variable d : inputs.

Definition temp : Z := Math_round (temperature_2m d).
Definition feelsLike : Z := Math_round (apparent_temperature d).
Definition windSpeed : Z := Math_round (wind_speed_10m d).
Definition uvIndex : Q := Fusion.or_zero (uv_index d).
Definition todayHigh : Z := Math_round (temperature_2m_max d).
Definition todayLow : Z := Math_round (temperature_2m_min d).
Definition precipProb : Q := Fusion.or_zero (precipitation_probability_max d).
Definition snowfall : Q := Fusion.or_zero (snowfall_sum d) / 2.54.

(** [if (c) list.push(x)] *)
Definition push_if {A} (c : bool) (x : A) : list A := if c then [x] else [].

Definition bring : list string :=
  push_if (isRaining (weather_code d) || Qle_bool 50 precipProb)
    "Umbrella"%string
  ++ push_if (isSnowy (weather_code d) || negb (Qle_bool snowfall 0))
       "Waterproof boots"%string
  ++ push_if (Qle_bool 6 uvIndex) "Sunscreen"%string
  ++ push_if (Qle_bool 3 uvIndex) "Sunglasses"%string
  ++ push_if (80 <=? temp)%Z "Water bottle"%string.

(** The blocks of [if]/[else if] that push onto [warnings], in the order
    of the program. *)
Definition feels_like_warning : list warning :=
  if (feelsLike <=? 0)%Z then [Frostbite feelsLike]
  else if negb (feelsLike =? temp)%Z && (5 <=? Z.abs (feelsLike - temp))%Z
  then [FeelsLike feelsLike]
  else [].

Definition snow_warning : list warning :=
  if Qle_bool 6 snowfall then [SnowHazard snowfall]
  else if Qle_bool 2 snowfall then [SnowExtraTime snowfall]
  else if negb (Qle_bool snowfall 0) then [LightSnow snowfall]
  else [].

Definition storm_warning : list warning :=
  push_if (isStormy (weather_code d)) Thunderstorms.

Definition wind_warning : list warning :=
  if (30 <=? windSpeed)%Z then [StrongWinds windSpeed]
  else if (20 <=? windSpeed)%Z then [Windy windSpeed]
  else [].

Definition visibility_warning : list warning :=
  push_if (present_below (visibility d) 1000) LowVisibility.

Definition air_warning : list warning :=
  if present_above (us_aqi d) 150 then [PoorAir (default 0 (us_aqi d))]
  else if present_above (us_aqi d) 100
  then [ModerateAir (default 0 (us_aqi d))]
  else [].

Definition uv_warning : list warning :=
  if Qle_bool 8 uvIndex then [VeryHighUV (Math_round uvIndex)]
  else if Qle_bool 6 uvIndex then [HighUV (Math_round uvIndex)]
  else [].

Definition warnings : list warning :=
  feels_like_warning ++ snow_warning ++ storm_warning ++ wind_warning
  ++ visibility_warning ++ air_warning ++ uv_warning.

Definition brief_headline : headline :=
  if isStormy (weather_code d) then Storms
  else if Qle_bool 4 snowfall then SnowDay
  else if (feelsLike <=? 10)%Z then BitterCold
  else if (feelsLike <=? 32)%Z then Chilly
  else if (95 <=? temp)%Z then Hot
  else if isRaining (weather_code d) then RainyDay
  else if Qle_bool 70 precipProb then RainLikely
  else if (70 <=? temp)%Z && (temp <=? 80)%Z
          && negb (Qle_bool 30 precipProb) && negb (Qle_bool 8 uvIndex)
  then Beautiful
  else HighLow todayHigh todayLow.

End Brief.

End WeatherBrief.

(** ** The snow chart of [ModelsTab] *)

Module SnowChart.

Local Open Scope Q_scope.

(** [Math.max(...xs, c)]: the running maximum over the arguments in
    order. *)
Definition Math_max_spread (xs : list Q) (c : Q) : Q :=
  match xs ++ [c] with
  | [] => c
  | x :: rest => foldl Fusion.Math_max x rest
  end.

(** [Math.max(...snowfall, 0.2)], where [snowfall] is the hourly series in
    inches, [snowfallCm.map(s => s / 2.54)]. *)
Definition maxSnow (snowfall : list Q) : Q := Math_max_spread snowfall 0.2.

(** The height of a bar, in percent:
    [[
    const height = (snow / maxSnow) * 100
    Math.max(height, snow > 0 ? 5 : 0)
    ]] *)
Definition bar (maxSnow snow : Q) : Q :=
  let height := snow / maxSnow * 100 in
  Fusion.Math_max height (if negb (Qle_bool snow 0) then 5 else 0).

End SnowChart.

(** * Properties *)

(** ** The frame map *)

Section FrameMapFacts.
Import FrameCache.

Implicit Types (l W F : list frame) (m : gmap Z frame) (f g : frame) (t : Z).

Lemma latest_snoc t l f :
  latest t (l ++ [f]) = if decide (time f = t) then Some f else latest t l.
Proof.
  unfold latest. rewrite filter_app, filter_cons, filter_nil.
  destruct (decide (time f = t)) as [Heq|Hne].
  - by rewrite last_snoc.
  - by rewrite app_nil_r.
Qed.

Lemma latest_app t l1 l2 :
  latest t (l1 ++ l2) =
  match latest t l2 with Some f => Some f | None => latest t l1 end.
Proof.
  induction l2 as [|f l2 IH] using rev_ind.
  - by rewrite app_nil_r.
  - rewrite app_assoc, !latest_snoc. destruct (decide (time f = t)); auto.
Qed.

Lemma latest_Some t l f : latest t l = Some f → f ∈ l ∧ time f = t.
Proof.
  induction l as [|g l IH] using rev_ind; [done|].
  rewrite latest_snoc. destruct (decide (time g = t)) as [Heq|Hne].
  - intros [= ->]. split; [|done].
    rewrite elem_of_app, list_elem_of_singleton. by right.
  - intros H. apply IH in H as [? ?]. split; [|done].
    rewrite elem_of_app. by left.
Qed.

Lemma latest_None t l : latest t l = None ↔ ∀ f, f ∈ l → time f ≠ t.
Proof.
  induction l as [|g l IH] using rev_ind.
  - split; [intros _ f Hf; by apply elem_of_nil in Hf|done].
  - rewrite latest_snoc. destruct (decide (time g = t)) as [Heq|Hne].
    + split; [done|]. intros H. exfalso. apply (H g); [|done].
      rewrite elem_of_app, list_elem_of_singleton. by right.
    + rewrite IH. split.
      * intros H f [Hf| ->%list_elem_of_singleton]%elem_of_app; auto.
      * intros H f Hf. apply H. rewrite elem_of_app. by left.
Qed.

Lemma latest_is_Some t l f : f ∈ l → time f = t → is_Some (latest t l).
Proof.
  intros Hf Ht. destruct (latest t l) eqn:E; [eauto|].
  rewrite latest_None in E. by destruct (E f Hf).
Qed.

(** A frame that is the only one of its time in [l] is the latest there. *)
Lemma latest_unique l f :
  f ∈ l → (∀ g, g ∈ l → time g = time f → g = f) →
  latest (time f) l = Some f.
Proof.
  intros Hf Hu. destruct (latest_is_Some (time f) l f Hf eq_refl) as [g Hg].
  rewrite Hg. f_equal. apply latest_Some in Hg as [? ?]. auto.
Qed.

Lemma foldl_add_new_lookup m l t :
  foldl add_new m l !! t =
  match latest t l with Some f => Some f | None => m !! t end.
Proof.
  induction l as [|f l IH] using rev_ind; [done|].
  rewrite foldl_app, latest_snoc. simpl. unfold add_new at 1.
  destruct (decide (time f = t)) as [<-|Hne].
  - by rewrite lookup_insert_eq.
  - by rewrite lookup_insert_ne.
Qed.

(** The first loop is the second one run on the frames that pass the age
    test. *)
Lemma foldl_add_cached cutoff m l :
  foldl (add_cached cutoff) m l =
  foldl add_new m (filter (λ f, cutoff ≤ time f) l).
Proof.
  revert m. induction l as [|f l IH]; intros m; [done|].
  rewrite filter_cons. simpl. rewrite IH. unfold add_cached.
  rewrite bool_decide_decide. by destruct (decide (cutoff ≤ time f)).
Qed.

Lemma frameMap_lookup W F cutoff t :
  frameMap W F cutoff !! t =
  latest t (filter (λ f, cutoff ≤ time f) W ++ F).
Proof.
  unfold frameMap. rewrite foldl_add_cached, <-foldl_app.
  rewrite foldl_add_new_lookup, lookup_empty. by destruct (latest _ _).
Qed.

(** Every value of the frame map sits under its own time. *)
Lemma frameMap_keyed W F cutoff t f :
  frameMap W F cutoff !! t = Some f → time f = t.
Proof. rewrite frameMap_lookup. by intros [_ ?]%latest_Some. Qed.

Lemma elem_of_sorted_values m f :
  f ∈ sorted_values m ↔ ∃ t, m !! t = Some f.
Proof.
  unfold sorted_values. rewrite merge_sort_Permutation, list_elem_of_fmap.
  split.
  - intros [[t g] [-> Hin]]. exists t. by apply elem_of_map_to_list.
  - intros [t Ht]. exists (t, f). split; [done|]. by apply elem_of_map_to_list.
Qed.

Lemma elem_of_merge W F now maxAge f :
  f ∈ merge W F now maxAge ↔
  latest (time f) (filter (λ f, now - maxAge ≤ time f) W ++ F) = Some f.
Proof.
  unfold merge. cbv zeta. rewrite elem_of_sorted_values. split.
  - intros [t Ht]. by rewrite <-frameMap_lookup, (frameMap_keyed _ _ _ _ _ Ht).
  - intros H. exists (time f). by rewrite frameMap_lookup.
Qed.

(** At most one frame per time in the merged window. *)
Lemma merge_one_per_time W F now maxAge f g :
  f ∈ merge W F now maxAge → g ∈ merge W F now maxAge →
  time f = time g → f = g.
Proof. rewrite !elem_of_merge. intros Hf Hg Ht. rewrite Ht in Hf. congruence. Qed.

#[local] Instance by_time_transitive : Transitive by_time.
Proof. intros a b c. unfold by_time. lia. Qed.

#[local] Instance by_time_total : Total by_time.
Proof. intros a b. unfold by_time. lia. Qed.

Lemma merge_sorted W F now maxAge :
  StronglySorted by_time (merge W F now maxAge).
Proof. apply StronglySorted_merge_sort; apply _. Qed.

(** The window is ascending without repeats: the times strictly increase. *)
Lemma merge_strictly_ascending W F now maxAge :
  StronglySorted (λ a b, time a < time b) (merge W F now maxAge).
Proof.
  pose proof (merge_sorted W F now maxAge) as Hs.
  assert (Hu : ∀ f g, f ∈ merge W F now maxAge → g ∈ merge W F now maxAge →
                      time f = time g → f = g)
    by (intros; by eapply merge_one_per_time).
  assert (Hnd : NoDup (merge W F now maxAge)).
  { unfold merge, sorted_values. rewrite merge_sort_Permutation.
    apply (NoDup_fmap_2_strong snd); [|apply NoDup_map_to_list].
    intros [t1 f1] [t2 f2] H1%elem_of_map_to_list H2%elem_of_map_to_list.
    simpl. intros ->. f_equal.
    apply frameMap_keyed in H1, H2. congruence. }
  induction Hs as [|a l Hl IH Hall]; constructor.
  - apply IH; [intros; apply Hu; set_solver | by inv Hnd].
  - inv Hnd. rewrite Forall_forall in Hall |- *. intros b Hb.
    specialize (Hall b Hb). unfold by_time in Hall.
    destruct (decide (time a = time b)) as [Heq|]; [|lia].
    assert (a = b) by (apply Hu; set_solver). set_solver.
Qed.

(** Whatever order the map lists its values in and whatever correct sort is
    applied, the array obtained is [sorted_values]. *)
Lemma sorted_values_unique W F cutoff l :
  l ≡ₚ (map_to_list (frameMap W F cutoff)).*2 → Sorted by_time l →
  l = sorted_values (frameMap W F cutoff).
Proof.
  intros Hp Hs. apply (Sorted_unique_strong by_time).
  - intros f g Hf Hg Hfg Hgf. unfold by_time in *.
    rewrite Hp in Hf. fold (sorted_values (frameMap W F cutoff)) in Hg.
    rewrite elem_of_sorted_values in Hg.
    apply list_elem_of_fmap in Hf as [[t1 f1] [-> Hf]].
    apply elem_of_map_to_list in Hf. destruct Hg as [t2 Hg]. simpl in *.
    pose proof (frameMap_keyed _ _ _ _ _ Hf).
    pose proof (frameMap_keyed _ _ _ _ _ Hg).
    assert (t1 = t2) by lia. congruence.
  - done.
  - apply Sorted_merge_sort; apply _.
  - unfold sorted_values. by rewrite merge_sort_Permutation.
Qed.

End FrameMapFacts.

(** ** The frame-cache merge *)

Section MergeFacts.
Import FrameCache.

Implicit Types (W F : list frame) (f g : frame) (now maxAge : Z).

(** Where a frame of the window comes from: the fresh batch, or the cached
    frames that pass the age test. *)
Lemma merge_origin W F now maxAge f :
  f ∈ merge W F now maxAge → f ∈ F ∨ (f ∈ W ∧ now - maxAge ≤ time f).
Proof.
  rewrite elem_of_merge. intros [Hin _]%latest_Some.
  apply elem_of_app in Hin as [Hin|Hin]; [right|by left].
  by apply list_elem_of_filter in Hin as [? ?].
Qed.

(** A time of the fresh batch is held in the window by the batch's latest
    frame of that time. *)
Lemma merge_fresh_latest W F now maxAge f g :
  latest (time g) F = Some f →
  g ∈ merge W F now maxAge → g = f.
Proof.
  intros Hl. rewrite elem_of_merge, latest_app, Hl. congruence.
Qed.

(** The frame map built from the window of a merge and the same batch is
    the frame map of that merge. *)
Lemma frameMap_merge W F now maxAge :
  frameMap (merge W F now maxAge) F (now - maxAge) =
  frameMap W F (now - maxAge).
Proof.
  apply map_eq. intros t. rewrite !frameMap_lookup, !latest_app.
  destruct (latest t F) as [f|] eqn:EF; [done|].
  set (keep := λ f : frame, now - maxAge ≤ time f).
  destruct (latest t (filter keep W)) as [f|] eqn:EW.
  - pose proof EW as [HfW <-]%latest_Some.
    assert (Hf : f ∈ merge W F now maxAge).
    { apply elem_of_merge. by rewrite latest_app, EF. }
    apply latest_unique.
    + apply list_elem_of_filter. split; [|done].
      by apply list_elem_of_filter in HfW as [? _].
    + intros g [_ Hg]%list_elem_of_filter Ht.
      by apply (merge_one_per_time W F now maxAge).
  - apply latest_None. intros g [Hk Hg]%list_elem_of_filter Ht.
    apply elem_of_merge in Hg. rewrite Ht, latest_app, EF in Hg.
    fold keep in Hg. congruence.
Qed.

(** C4: merging the same fresh batch a second time into the window of the
    first merge, at the same [now] and [maxAgeSeconds], gives that window
    again: [merge (merge W F) F = merge W F]. *)
Theorem merge_idempotent W F now maxAge :
  merge (merge W F now maxAge) F now maxAge = merge W F now maxAge.
Proof. unfold merge at 1 3. cbv zeta. by rewrite frameMap_merge. Qed.

(** C2: when a time [t] is present both in the cached window and in the
    fresh batch, the window of the merge has exactly one frame of time [t]
    and it is a frame of the fresh batch, in whatever order the cached and
    the fresh frames are run through ([W'] and [F'] list the frames of [W]
    and [F] in any order); when the batch has a single frame of time [t], it
    is that frame. *)
Theorem merge_fresh_wins W F now maxAge (t : Z) :
  (∃ fold, fold ∈ W ∧ time fold = t) →
  (∃ fnew, fnew ∈ F ∧ time fnew = t) →
  ∀ W' F', W' ≡ₚ W → F' ≡ₚ F →
    ∃ f, f ∈ F ∧ time f = t ∧
         f ∈ merge W' F' now maxAge ∧
         (∀ g, g ∈ merge W' F' now maxAge → time g = t → g = f) ∧
         (∀ fnew, fnew ∈ F → time fnew = t →
                  (∀ g, g ∈ F → time g = t → g = fnew) → f = fnew).
Proof.
  intros _ (fnew & Hnew & Ht) W' F' _ HF.
  destruct (latest_is_Some t F' fnew) as [f Hl]; [by rewrite HF|done|].
  pose proof Hl as [HfF' Hft]%latest_Some.
  assert (HfF : f ∈ F) by (by rewrite <-HF).
  exists f. split; [done|]. split; [done|]. split; [|split].
  - apply elem_of_merge. by rewrite latest_app, Hft, Hl.
  - intros g Hg Hgt. rewrite <-Hgt in Hl. by eapply merge_fresh_latest.
  - intros fnew' _ _ Hu. by apply Hu.
Qed.



(** Of the window, exactly the frames with [time <= now]
    are in the array that is persisted, so a frame of the fresh batch that
    lies in the future is in the window and not in the persisted array. *)
Lemma persisted_spec W F now maxAge f :
  f ∈ persisted (merge W F now maxAge) now ↔
  f ∈ merge W F now maxAge ∧ time f ≤ now.
Proof. unfold persisted. rewrite list_elem_of_filter. tauto. Qed.

End MergeFacts.

(** ** Persistence *)

Section StorageFacts.
Import FrameCache Storage.

Implicit Types (fl : faults) (key : string) (F : list frame) (now : Z)
  (s : gmap string text).

(** What the guarded read leaves in [cachedFrames]. *)
Lemma load_cached_run fl key s :
  load_cached fl key s =
  (Returned (if getItem_throws fl then Array []
             else match s !! key with
                  | Some (Json v) => v
                  | _ => Array []
                  end), s).
Proof.
  unfold load_cached, try_catch, bind, getItem.
  destruct (getItem_throws fl); [done|].
  destruct (s !! key) as [[|v|]|]; done.
Qed.

(** What the guarded write leaves in the storage. *)
Lemma save_cached_run fl key allFrames now s :
  save_cached fl key allFrames now s =
  (Returned tt,
   if stringify_throws fl || setItem_throws fl then s
   else <[key := Serialized (persisted allFrames now)]> s).
Proof.
  unfold save_cached, try_catch, bind, JSON_stringify, setItem.
  destruct (stringify_throws fl), (setItem_throws fl); done.
Qed.

Lemma cached_frames_state v s : (cached_frames v s).2 = s.
Proof.
  destruct v as [elems|]; simpl; [|done].
  by destruct (existsb is_null elems).
Qed.

(** Reading the cache never writes. *)
Lemma read_cache_state fl key s : (read_cache fl key s).2 = s.
Proof.
  unfold read_cache, bind. rewrite load_cached_run. apply cached_frames_state.
Qed.

(** Reading the cache depends on the faults through [getItem] only. *)
Lemma read_cache_faults fl fl' key s :
  getItem_throws fl' = getItem_throws fl →
  read_cache fl' key s = read_cache fl key s.
Proof.
  intros H. unfold read_cache, bind. by rewrite !load_cached_run, H.
Qed.

(** A read that fails, or finds nothing, gives no cached frame. *)
Lemma read_cache_cold fl key s :
  getItem_throws fl = true ∨ s !! key = Some Malformed
  ∨ s !! key = Some Empty ∨ s !! key = None →
  read_cache fl key s = (Returned [], s).
Proof.
  intros H. unfold read_cache, bind. rewrite load_cached_run.
  destruct (getItem_throws fl); [done|].
  destruct H as [?|[->|[->| ->]]]; done.
Qed.

Lemma omap_frame_of (l : list frame) : omap frame_of (AFrame <$> l) = l.
Proof.
  induction l as [|f l IH]; [done|].
  rewrite fmap_cons. cbn. f_equal. exact IH.
Qed.

Lemma no_null_frames (l : list frame) :
  existsb is_null (AFrame <$> l) = false.
Proof. induction l as [|f l IH]; [done|]. done. Qed.

(** A cache written by the program is read back as it was written. *)
Lemma read_cache_Serialized fl key s l :
  getItem_throws fl = false → s !! key = Some (Serialized l) →
  read_cache fl key s = (Returned l, s).
Proof.
  intros Hg Hk. unfold read_cache, bind. rewrite load_cached_run, Hg, Hk.
  unfold Serialized. simpl. by rewrite no_null_frames, omap_frame_of.
Qed.

(** The read ends with cached frames, or by an exception that no fault of
    the storage causes. *)
Lemma read_cache_cases fl key s :
  (∃ l, read_cache fl key s = (Returned l, s)) ∨
  (read_cache fl key s = (Thrown, s) ∧ getItem_throws fl = false).
Proof.
  unfold read_cache, bind. rewrite load_cached_run.
  destruct (getItem_throws fl); [left; by exists []|].
  destruct (s !! key) as [[|[elems|]|]|]; simpl; eauto.
  destruct (existsb is_null elems); eauto.
Qed.



(** The cached frames that are read are frame elements of the stored
    array. *)
Lemma read_cache_elements fl key s l f :
  read_cache fl key s = (Returned l, s) → f ∈ l →
  ∃ elems, s !! key = Some (Json (Array elems)) ∧ AFrame f ∈ elems.
Proof.
  unfold read_cache, bind. rewrite load_cached_run.
  destruct (getItem_throws fl).
  { simpl. intros [= <-]. by intros ?%elem_of_nil. }
  destruct (s !! key) as [[|[elems|]|]|]; simpl;
    try (intros [= <-]; by intros ?%elem_of_nil); try done.
  destruct (existsb is_null elems); [done|]. intros [= <-].
  intros (e & He & Hf)%list_elem_of_omap.
  exists elems. split; [done|]. destruct e; simplify_eq/=. done.
Qed.

(** [fetchFrames] on cached frames [l] that were read. *)
Lemma fetchFrames_run fl key F now s l :
  read_cache fl key s = (Returned l, s) →
  fetchFrames fl key F now s =
  (Returned (merge l F now MAX_AGE_SECONDS),
   if stringify_throws fl || setItem_throws fl then s
   else <[key := Serialized
                   (persisted (merge l F now MAX_AGE_SECONDS) now)]> s).
Proof.
  intros Hl. unfold fetchFrames, bind at 1. rewrite Hl. cbn beta iota zeta.
  unfold bind. by rewrite save_cached_run.
Qed.

(** [fetchFrames] on a cached value the loop cannot run over. *)
Lemma fetchFrames_thrown fl key F now s :
  read_cache fl key s = (Thrown, s) →
  fetchFrames fl key F now s = (Thrown, s).
Proof. intros Hl. unfold fetchFrames, bind. by rewrite Hl. Qed.

(** A poll writes under its own key only. *)
Lemma fetchFrames_other_keys fl key F now s key' :
  key' ≠ key → (fetchFrames fl key F now s).2 !! key' = s !! key'.
Proof.
  intros Hne. destruct (read_cache_cases fl key s) as [[l Hl]|[Hl _]].
  - rewrite (fetchFrames_run fl key F now s l Hl). simpl.
    destruct (stringify_throws fl || setItem_throws fl); [done|].
    by rewrite lookup_insert_ne.
  - by rewrite (fetchFrames_thrown fl key F now s Hl).
Qed.





End StorageFacts.

(** ** Playback *)

Section PlaybackFacts.
Import Playback.

Lemma advance_mod n i : 0 ≤ i → 0 < n → advance n i = (i + 1) `mod` n.
Proof. intros Hi Hn. unfold advance. apply Z.rem_mod_nonneg; lia. Qed.

(** C6: on a window of [n > 0] frames and an index [0 <= i < n], one advance
    step of the playback ([RadarTab] while playing, [MiniRadar] once the zoom
    is complete) yields [(i + 1) mod n], which stays in range and is [0] at
    [i = n - 1]. *)
Theorem playback_advance_wraps (radarFrames : list frame) (i : Z) :
  0 ≤ i < Z.of_nat (length radarFrames) →
  currentFrame (tick radarFrames {| currentFrame := i; isPlaying := true |})
    = (i + 1) `mod` Z.of_nat (length radarFrames) ∧
  mini_tick radarFrames true i = (i + 1) `mod` Z.of_nat (length radarFrames) ∧
  0 ≤ (i + 1) `mod` Z.of_nat (length radarFrames)
    < Z.of_nat (length radarFrames) ∧
  (i = Z.of_nat (length radarFrames) - 1 →
   (i + 1) `mod` Z.of_nat (length radarFrames) = 0).
Proof.
  intros Hi. unfold tick, mini_tick. cbn zeta. simpl.
  destruct (Z.eqb_spec (Z.of_nat (length radarFrames)) 0) as [H0|_]; [lia|].
  simpl. rewrite advance_mod by lia. repeat split; try (apply Z.mod_pos_bound; lia).
  intros ->. replace (_ - 1 + 1) with (Z.of_nat (length radarFrames)) by lia.
  apply Z.mod_same. lia.
Qed.




End PlaybackFacts.

(** ** Snowfall fusion *)

Section FusionFacts.
Import Fusion.
Local Open Scope Q_scope.

Implicit Types (gfs gem : list elem) (i : nat) (p s : Q).

(** [Math_max] is the maximum of the rationals. *)
Lemma Math_max_Qmax p s : Math_max p s = Qmax p s.
Proof. reflexivity. Qed.

Lemma Math_max_upper p s : p <= Math_max p s ∧ s <= Math_max p s.
Proof.
  unfold Math_max. destruct (p ?= s) eqn:E.
  - apply Qeq_alt in E. split; lra.
  - apply Qlt_alt in E. split; lra.
  - apply Qgt_alt in E. split; lra.
Qed.

Lemma Math_max_choice p s : Math_max p s = p ∨ Math_max p s = s.
Proof. unfold Math_max. destruct (p ?= s); auto. Qed.

(** [v || 0] leaves a number as it is, up to the representation of zero. *)
Lemma or_zero_number s : or_zero (Some (Some s)) == s.
Proof.
  simpl. destruct (Qeq_bool s 0) eqn:E; [|reflexivity].
  apply Qeq_bool_iff in E. by rewrite E.
Qed.

Lemma Math_max_nonneg_zero p z : z == 0 → 0 <= p → Math_max p z = p.
Proof.
  intros Hz Hp. unfold Math_max. destruct (p ?= z) eqn:E; [done| |done].
  apply Qlt_alt in E. lra.
Qed.

Lemma fuse_lookup gfs gem i :
  fuse gfs gem !! i =
  (λ g, Math_max (ToNumber g) (or_zero (gem !! i))) <$> gfs !! i.
Proof. unfold fuse. by rewrite list_lookup_imap. Qed.

(** The fused array has the indices of the primary one, no more. *)
Lemma fuse_length gfs gem : length (fuse gfs gem) = length gfs.
Proof. unfold fuse. apply length_imap. Qed.

(** C1, as amended: the fused series has exactly the length of the primary
    one (values of a longer secondary series past that length are dropped);
    at an index where the primary series has the value [p], the fused value
    is [max(p, s)] where the secondary series has the value [s], and
    [max(p, 0)] where the secondary series is shorter or has no value,
    which is [p] unchanged whenever [p >= 0]. *)
Theorem fuse_max_or_primary gfs gem i p :
  gfs !! i = Some (Some p) →
  length (fuse gfs gem) = length gfs ∧
  match gem !! i with
  | Some (Some s) => ∃ m, fuse gfs gem !! i = Some m ∧ m == Qmax p s
  | Some None | None =>
      ∃ m, fuse gfs gem !! i = Some m ∧ m == Qmax p 0 ∧ (0 <= p → m = p)
  end.
Proof.
  intros Hp. split; [apply fuse_length|].
  assert (Hf : fuse gfs gem !! i = Some (Math_max p (or_zero (gem !! i))))
    by (rewrite fuse_lookup; unfold elem in *; by rewrite Hp).
  rewrite Hf. clear Hf.
  destruct (gem !! i) as [[s|]|] eqn:Es.
  - eexists. split; [done|]. rewrite Math_max_Qmax.
    apply Q.max_compat; [reflexivity|apply or_zero_number].
  - eexists. split; [done|]. split; [done|].
    intros H0. by apply Math_max_nonneg_zero.
  - eexists. split; [done|]. split; [done|].
    intros H0. by apply Math_max_nonneg_zero.
Qed.

(** C1, refuted as stated: where only the secondary series has a value (the
    primary is shorter), that value does not pass through; the fused series
    stops with the primary one. *)
Lemma fuse_pass_through_counterexample :
  ¬ (∀ gfs gem i,
       (∀ p s, gfs !! i = Some (Some p) → gem !! i = Some (Some s) →
               ∃ m, fuse gfs gem !! i = Some m ∧ m == Qmax p s) ∧
       (∀ p, gfs !! i = Some (Some p) → gem !! i = None →
             fuse gfs gem !! i = Some p) ∧
       (∀ s, gfs !! i = None → gem !! i = Some (Some s) →
             fuse gfs gem !! i = Some s)).
Proof.
  intros H.
  destruct (H [Some 1] [Some 5; Some 7] 1%nat) as (_ & _ & Hs).
  specialize (Hs 7 eq_refl eq_refl). discriminate Hs.
Qed.

(** The examples of the specification. *)
Example fuse_unequal_lengths :
  fuse [Some 1; Some 2; Some 3] [Some 5; Some 0] = [5; 2; 3].
Proof. reflexivity. Qed.

Example fuse_per_index_max :
  fuse [Some 0; Some 5; Some 2] [Some 3; Some 1; Some 4] = [3; 5; 4].
Proof. reflexivity. Qed.

(** A negative primary value does not pass through a shorter secondary
    series: [gem[i] || 0] puts [0] against it. *)
Example fuse_negative_primary : fuse [Some (-1)] [] = [0].
Proof. reflexivity. Qed.

(** When the secondary request fails, the primary data is kept as it is. *)
Lemma fetchExtended_primary_only gfsData :
  fetchExtended gfsData None = gfsData.
Proof. reflexivity. Qed.

(** The hourly and the daily series are fused separately. *)
Lemma fetchExtended_fields g_h g_d e_h e_d :
  fetchExtended (Response (Some g_h) (Some g_d))
                (Some (Response (Some e_h) (Some e_d))) =
  Response (Some (Some <$> fuse g_h e_h)) (Some (Some <$> fuse g_d e_d)).
Proof. reflexivity. Qed.

End FusionFacts.

(** ** The units of the fused series *)

Section RequestFacts.
Import Requests Fusion.

(** C5, as the program has it: for the default location, the GFS requests
    name the unit [precipitation_unit=inch], the GEM requests they are fused
    with name no precipitation unit, and the fusion takes the maximum of the
    two raw numbers without converting either: a GFS value [1] against a GEM
    value [2] fuses to [2], in the hourly and in the daily series. *)
Theorem snowfall_requests_disagree_on_unit :
  includes "&precipitation_unit=inch" (gfs_extended_url DEFAULT_LOCATION)
    = true ∧
  includes "precipitation_unit" (gem_extended_url DEFAULT_LOCATION) = false ∧
  includes "&precipitation_unit=inch"
           (gfs_daily_url DEFAULT_LOCATION "&_t=1762084800000") = true ∧
  includes "precipitation_unit"
           (gem_daily_url DEFAULT_LOCATION "&_t=1762084800000") = false ∧
  fetchExtended (Response (Some [Some 1%Q]) (Some [Some 1%Q]))
                (Some (Response (Some [Some 2%Q]) (Some [Some 2%Q])))
    = Response (Some [Some 2%Q]) (Some [Some 2%Q]) ∧
  fetchWeatherData_daily (Response None (Some [Some 1%Q]))
                         (Some (Response None (Some [Some 2%Q])))
    = Response None (Some [Some 2%Q]).
Proof. repeat split; vm_compute; reflexivity. Qed.

(** So the two series of a fusion arrive in different units: inches from
    GFS, centimetres from GEM. *)
Example snowfall_units_of_requests :
  snowfall_unit (gfs_extended_url DEFAULT_LOCATION) = Inch ∧
  snowfall_unit (gem_extended_url DEFAULT_LOCATION) = Centimetre ∧
  snowfall_unit (gfs_daily_url DEFAULT_LOCATION "&_t=1762084800000") = Inch ∧
  snowfall_unit (gem_daily_url DEFAULT_LOCATION "&_t=1762084800000")
    = Centimetre.
Proof. repeat split; vm_compute; reflexivity. Qed.

End RequestFacts.


(** ** Classification bands *)

Section LevelFacts.
Import Levels.
Local Open Scope Q_scope.

(** The test [x <= b] of the program, as a proposition. *)
Lemma Qle_bool_cases x b :
  (Qle_bool x b = true ∧ x <= b) ∨ (Qle_bool x b = false ∧ b < x).
Proof.
  destruct (Qle_bool x b) eqn:E.
  - left. split; [done|]. by apply Qle_bool_iff.
  - right. split; [done|]. apply Qnot_le_lt. intros H%Qle_bool_iff. congruence.
Qed.

Ltac band x b :=
  destruct (Qle_bool_cases x b) as [[-> ?]|[-> ?]];
  try lra; try reflexivity.

(** C9: the AQI classifier returns Good up to 50, Moderate above 50 up to
    100, Unhealthy for Sensitive above 100 up to 150, Unhealthy above 150 up
    to 200, Very Unhealthy above 200 up to 300 and Hazardous above 300; the
    UV classifier returns Low up to 2, Moderate above 2 up to 5, High above 5
    up to 7, Very High above 7 up to 10 and Extreme above 10; the upper
    bound of each band belongs to it. *)
Theorem classification_bands (aqi uv : Q) :
  (aqi <= 50 → label (getAqiLevel aqi) = "Good"%string) ∧
  (50 < aqi <= 100 → label (getAqiLevel aqi) = "Moderate"%string) ∧
  (100 < aqi <= 150 →
     label (getAqiLevel aqi) = "Unhealthy for Sensitive"%string) ∧
  (150 < aqi <= 200 → label (getAqiLevel aqi) = "Unhealthy"%string) ∧
  (200 < aqi <= 300 → label (getAqiLevel aqi) = "Very Unhealthy"%string) ∧
  (300 < aqi → label (getAqiLevel aqi) = "Hazardous"%string) ∧
  (uv <= 2 → label (getUvLevel uv) = "Low"%string) ∧
  (2 < uv <= 5 → label (getUvLevel uv) = "Moderate"%string) ∧
  (5 < uv <= 7 → label (getUvLevel uv) = "High"%string) ∧
  (7 < uv <= 10 → label (getUvLevel uv) = "Very High"%string) ∧
  (10 < uv → label (getUvLevel uv) = "Extreme"%string).
Proof.
  unfold getAqiLevel, getUvLevel.
  repeat split; intros H.
  - band aqi 50.
  - band aqi 50. band aqi 100.
  - band aqi 50. band aqi 100. band aqi 150.
  - band aqi 50. band aqi 100. band aqi 150. band aqi 200.
  - band aqi 50. band aqi 100. band aqi 150. band aqi 200. band aqi 300.
  - band aqi 50. band aqi 100. band aqi 150. band aqi 200. band aqi 300.
  - band uv 2.
  - band uv 2. band uv 5.
  - band uv 2. band uv 5. band uv 7.
  - band uv 2. band uv 5. band uv 7. band uv 10.
  - band uv 2. band uv 5. band uv 7. band uv 10.
Qed.

End LevelFacts.

(** * The theorems at concrete inputs *)

Section Witnesses.
Import FrameCache Storage Playback Fusion Levels.

(** C2 at a cached window and a fresh batch that share the time 100, both
    run through in another order. *)
Lemma merge_fresh_wins_witness :
  ∃ f, f ∈ [Frame 100 "/v2/radar/100/fresh"; Frame 300 "/v2/radar/300"] ∧
       time f = 100 ∧
       f ∈ merge [Frame 200 "/v2/radar/200";
                  Frame 100 "/v2/radar/100/cached"]
                 [Frame 300 "/v2/radar/300";
                  Frame 100 "/v2/radar/100/fresh"] 400 MAX_AGE_SECONDS ∧
       (∀ g, g ∈ merge [Frame 200 "/v2/radar/200";
                        Frame 100 "/v2/radar/100/cached"]
                       [Frame 300 "/v2/radar/300";
                        Frame 100 "/v2/radar/100/fresh"]
                       400 MAX_AGE_SECONDS →
             time g = 100 → g = f) ∧
       (∀ fnew,
          fnew ∈ [Frame 100 "/v2/radar/100/fresh";
                  Frame 300 "/v2/radar/300"] →
          time fnew = 100 →
          (∀ g, g ∈ [Frame 100 "/v2/radar/100/fresh";
                     Frame 300 "/v2/radar/300"] →
                time g = 100 → g = fnew) →
          f = fnew).
Proof.
  apply (merge_fresh_wins
           [Frame 100 "/v2/radar/100/cached"; Frame 200 "/v2/radar/200"]
           [Frame 100 "/v2/radar/100/fresh"; Frame 300 "/v2/radar/300"]
           400 MAX_AGE_SECONDS 100).
  - exists (Frame 100 "/v2/radar/100/cached").
    split; [apply list_elem_of_here|reflexivity].
  - exists (Frame 100 "/v2/radar/100/fresh").
    split; [apply list_elem_of_here|reflexivity].
  - apply perm_swap.
  - apply perm_swap.
Defined.


(** C6 at a window of five frames and the index 4. *)
Lemma playback_advance_wraps_witness :
  currentFrame (tick (replicate 5 (Frame 0 ""))
                     {| currentFrame := 4; isPlaying := true |}) = 0 ∧
  mini_tick (replicate 5 (Frame 0 "")) true 4 = 0.
Proof.
  destruct (playback_advance_wraps (replicate 5 (Frame 0 "")) 4)
    as (H1 & H2 & _ & H0).
  - simpl. lia.
  - rewrite H1, H2. split; apply H0; reflexivity.
Defined.


(** C1 (amended) at the series of the specification's example, index 2,
    where the secondary series has ended. *)
Lemma fuse_max_or_primary_witness :
  length (fuse [Some 1%Q; Some 2%Q; Some 3%Q] [Some 5%Q; Some 0%Q]) = 3%nat ∧
  ∃ m, fuse [Some 1%Q; Some 2%Q; Some 3%Q] [Some 5%Q; Some 0%Q] !! 2%nat
         = Some m ∧
       (m == Qmax 3 0)%Q ∧ ((0 <= 3)%Q → m = 3%Q).
Proof.
  apply (fuse_max_or_primary [Some 1%Q; Some 2%Q; Some 3%Q]
           [Some 5%Q; Some 0%Q] 2 3%Q).
  reflexivity.
Defined.

(** C9 at the boundary values 50 and 51, and the UV index 2. *)
Lemma classification_bands_witness :
  label (getAqiLevel 50) = "Good" ∧
  label (getAqiLevel 51) = "Moderate" ∧
  label (getUvLevel 2) = "Low".
Proof.
  split; [|split].
  - apply (classification_bands 50 2). lra.
  - apply (classification_bands 51 2). lra.
  - apply (classification_bands 50 2). lra.
Defined.


End Witnesses.

(** * Further properties of the frame cache *)

Section WindowFacts.
Import FrameCache Timeline.

Implicit Types (l W F : list frame) (f g : frame) (now maxAge t : Z).

#[local] Instance window_order_transitive : Transitive by_time.
Proof. intros a b c. unfold by_time. lia. Qed.

Lemma ascending_one_per_time l f g :
  ascending l → f ∈ l → g ∈ l → time f = time g → f = g.
Proof.
  induction 1 as [|a l Hl IH Hall]; [by intros ?%elem_of_nil|].
  rewrite Forall_forall in Hall.
  intros [->|Hf]%elem_of_cons [->|Hg]%elem_of_cons Ht; auto.
  - specialize (Hall g Hg). lia.
  - specialize (Hall f Hf). lia.
Qed.

Lemma ascending_NoDup l : ascending l → NoDup l.
Proof.
  induction 1 as [|a l Hl IH Hall]; constructor; [|done].
  rewrite Forall_forall in Hall. intros Ha. specialize (Hall a Ha). lia.
Qed.

Lemma ascending_by_time l : ascending l → Sorted by_time l.
Proof.
  intros H. apply StronglySorted_Sorted.
  induction H as [|a l Hl IH Hall]; constructor; [done|].
  eapply Forall_impl; [done|]. unfold by_time. intros; simpl in *; lia.
Qed.

Lemma ascending_lookup l (i j : nat) f g :
  ascending l → l !! i = Some f → l !! j = Some g → (i < j)%nat →
  time f < time g.
Proof.
  intros H. revert i j. induction H as [|a l Hl IH Hall]; intros i j.
  - by rewrite lookup_nil.
  - destruct i as [|i], j as [|j]; simpl; try lia.
    + intros [= ->] Hg _. rewrite Forall_forall in Hall.
      apply Hall. by eapply list_elem_of_lookup_2.
    + intros Hf Hg Hij. apply (IH i j); [done..|lia].
Qed.

Lemma filter_all (P : frame → Prop) `{∀ x, Decision (P x)} l :
  (∀ f, f ∈ l → P f) → filter P l = l.
Proof.
  induction l as [|a l IH]; [done|]. intros Hall.
  rewrite filter_cons_True by (apply Hall; left).
  f_equal. apply IH. intros f Hf. apply Hall. by right.
Qed.

Lemma filter_none (P : frame → Prop) `{∀ x, Decision (P x)} l :
  (∀ f, f ∈ l → ¬ P f) → filter P l = [].
Proof.
  induction l as [|a l IH]; [done|]. intros Hall.
  rewrite filter_cons_False by (apply Hall; left).
  apply IH. intros f Hf. apply Hall. by right.
Qed.

Lemma merge_NoDup W F now maxAge : NoDup (merge W F now maxAge).
Proof. apply ascending_NoDup, merge_strictly_ascending. Qed.

(** When the cached frames that pass the age test, followed by the fresh
    ones, already form an ascending timeline, the merge returns it as it
    is. *)
Lemma merge_of_ascending W F now maxAge :
  ascending (filter (λ f, now - maxAge ≤ time f) W ++ F) →
  merge W F now maxAge = filter (λ f, now - maxAge ≤ time f) W ++ F.
Proof.
  intros Hasc. set (l := filter _ W ++ F) in *.
  apply (Sorted_unique_strong by_time).
  - intros f g Hf Hg Hfg Hgf. unfold by_time in *.
    apply elem_of_merge in Hf. fold l in Hf.
    apply latest_Some in Hf as [Hf _].
    apply (ascending_one_per_time l); [done..|lia].
  - apply StronglySorted_Sorted, merge_sorted.
  - by apply ascending_by_time.
  - apply NoDup_Permutation; [apply merge_NoDup|by apply ascending_NoDup|].
    intros f. rewrite elem_of_merge. fold l. split.
    + by intros [? _]%latest_Some.
    + intros Hf. apply latest_unique; [done|].
      intros g Hg Ht. by apply (ascending_one_per_time l).
Qed.

(** X1: the window of a merge is a timeline: its times strictly increase
    along the array, so it is sorted and has one frame per time. *)
Theorem window_strictly_ascending W F now maxAge :
  ascending (merge W F now maxAge) ∧
  ∀ (i j : nat) f g,
    merge W F now maxAge !! i = Some f →
    merge W F now maxAge !! j = Some g →
    (i < j)%nat → time f < time g.
Proof.
  pose proof (merge_strictly_ascending W F now maxAge) as Hasc.
  split; [done|]. intros i j f g. by apply ascending_lookup.
Qed.

(** X2: a poll that brings no fresh frame leaves a cached timeline whose
    frames are all within the retention horizon exactly as it was. *)
Theorem merge_empty_fresh_keeps_window W now maxAge :
  ascending W → (∀ f, f ∈ W → now - maxAge ≤ time f) →
  merge W [] now maxAge = W.
Proof.
  intros Hasc Hage.
  rewrite merge_of_ascending; rewrite app_nil_r, filter_all; done.
Qed.

(** X3: on a cold start (nothing cached) the window is the fresh timeline
    itself, whatever the age of its frames. *)
Theorem merge_cold_start W_fresh now maxAge :
  ascending W_fresh → merge [] W_fresh now maxAge = W_fresh.
Proof. intros Hasc. by rewrite merge_of_ascending. Qed.

(** X4: when every cached frame is older than the retention horizon and the
    poll brings nothing, the window is empty. *)
Theorem merge_all_expired W now maxAge :
  (∀ f, f ∈ W → time f < now - maxAge) → merge W [] now maxAge = [].
Proof.
  intros Hold.
  assert (Hnone : filter (λ f, now - maxAge ≤ time f) W = []).
  { apply filter_none. intros f Hf. specialize (Hold f Hf). lia. }
  rewrite merge_of_ascending; rewrite Hnone; [done|constructor].
Qed.

(** X5: the times of the window are exactly the times of the fresh frames
    and the times, within the retention horizon, of the cached frames:
    nothing fresh is lost, and no time comes from anywhere else. *)
Theorem window_times W F now maxAge t :
  (∃ g, g ∈ merge W F now maxAge ∧ time g = t) ↔
  (∃ f, f ∈ F ∧ time f = t) ∨
  (∃ f, f ∈ W ∧ time f = t ∧ now - maxAge ≤ t).
Proof.
  split.
  - intros (g & Hg & <-). apply merge_origin in Hg as [Hg|[Hg Hage]].
    + left. eauto.
    + right. eauto.
  - intros H.
    assert (Hin : ∃ f, f ∈ filter (λ f, now - maxAge ≤ time f) W ++ F
                       ∧ time f = t).
    { destruct H as [(f & Hf & Ht)|(f & Hf & Ht & Hage)]; exists f.
      - split; [|done]. apply elem_of_app. by right.
      - split; [|done]. apply elem_of_app. left.
        apply list_elem_of_filter. split; [lia|done]. }
    destruct Hin as (f & Hf & Ht).
    destruct (latest_is_Some t _ f Hf Ht) as [g Hg].
    pose proof Hg as [_ Hgt]%latest_Some.
    exists g. split; [|done]. apply elem_of_merge. by rewrite Hgt.
Qed.

(** What is persisted of a window, merged again with the same batch, gives
    the window back when the cached frames were not in the future. *)
Lemma merge_persisted W F now maxAge :
  (∀ f, f ∈ W → time f ≤ now) →
  merge (persisted (merge W F now maxAge) now) F now maxAge
  = merge W F now maxAge.
Proof.
  intros Hpast. unfold merge at 1 3. cbv zeta. f_equal.
  apply map_eq. intros t. rewrite !frameMap_lookup, !latest_app.
  destruct (latest t F) as [f|] eqn:EF; [done|].
  set (keep := λ f : frame, now - maxAge ≤ time f).
  destruct (latest t (filter keep W)) as [f|] eqn:EW.
  - pose proof EW as [HfW <-]%latest_Some.
    apply list_elem_of_filter in HfW as [Hk HfW].
    assert (Hf : f ∈ merge W F now maxAge).
    { apply elem_of_merge. by rewrite latest_app, EF. }
    apply latest_unique.
    + apply list_elem_of_filter. split; [done|].
      apply persisted_spec. auto.
    + intros g [_ [Hg _]%persisted_spec]%list_elem_of_filter Ht.
      by apply (merge_one_per_time W F now maxAge).
  - apply latest_None.
    intros g [Hk [Hg _]%persisted_spec]%list_elem_of_filter Ht.
    apply elem_of_merge in Hg. rewrite Ht, latest_app, EF in Hg.
    fold keep in Hg. congruence.
Qed.

End WindowFacts.

(** * Polls through the storage *)

Section PollFacts.
Import FrameCache Storage.

Implicit Types (fl : faults) (key : string) (F : list frame) (now : Z)
  (s : gmap string text).

(** X6: whatever fails and however the poll ends, it never touches what is
    stored under another key (the cache of [MiniRadar] and the one of
    [RadarTab] do not interfere); and when no storage step fails and the
    poll returns a window, the next read of the cache finds exactly the
    frames of that window with [time <= now]. *)
Theorem fetchFrames_round_trip fl key F now s :
  (∀ key', key' ≠ key → (fetchFrames fl key F now s).2 !! key' = s !! key') ∧
  (getItem_throws fl = false → stringify_throws fl = false →
   setItem_throws fl = false →
   ∀ window, (fetchFrames fl key F now s).1 = Returned window →
   read_cache fl key (fetchFrames fl key F now s).2 =
     (Returned (persisted window now), (fetchFrames fl key F now s).2)).
Proof.
  split; [intros key'; apply fetchFrames_other_keys|].
  intros Hg Hs Hw window.
  destruct (read_cache_cases fl key s) as [[l Hl]|[Hl _]].
  - rewrite (fetchFrames_run fl key F now s l Hl). simpl.
    rewrite Hs, Hw. simpl. intros [= <-].
    apply read_cache_Serialized; [done|]. apply lookup_insert_eq.
  - by rewrite (fetchFrames_thrown fl key F now s Hl).
Qed.

(** X7: polling again with the same batch at the same time gives the same
    outcome as the first poll, through whatever the first poll left in the
    storage and whatever writes fail in either poll, as long as the read
    fails in both polls or in neither and the frames cached at the start
    were not in the future (as everything the program persists is). *)
Theorem fetchFrames_repeat fl1 fl2 key F now s :
  getItem_throws fl2 = getItem_throws fl1 →
  (∀ elems, s !! key = Some (Json (Array elems)) →
            ∀ f, AFrame f ∈ elems → time f ≤ now) →
  (fetchFrames fl2 key F now (fetchFrames fl1 key F now s).2).1
  = (fetchFrames fl1 key F now s).1.
Proof.
  intros Hread Hpast.
  pose proof (read_cache_faults fl1 fl2 key s Hread) as Hsame.
  destruct (read_cache_cases fl1 key s) as [[l Hl]|[Hl _]].
  - rewrite (fetchFrames_run fl1 key F now s l Hl). simpl.
    destruct (stringify_throws fl1 || setItem_throws fl1).
    + rewrite (fetchFrames_run fl2 key F now s l); [done|].
      by rewrite Hsame.
    + set (window := merge l F now MAX_AGE_SECONDS).
      set (s' := <[key := Serialized (persisted window now)]> s).
      destruct (getItem_throws fl1) eqn:Hg.
      * rewrite (read_cache_cold fl1 key s) in Hl by auto.
        assert (l = []) as -> by congruence.
        rewrite (fetchFrames_run fl2 key F now s' []); [done|].
        apply read_cache_cold. auto.
      * rewrite (fetchFrames_run fl2 key F now s' (persisted window now)).
        2:{ apply read_cache_Serialized; [done|]. apply lookup_insert_eq. }
        simpl. f_equal. unfold window. apply merge_persisted.
        intros f Hf.
        destruct (read_cache_elements fl1 key s l f Hl Hf)
          as (elems & Hk & He).
        by apply (Hpast elems).
  - rewrite (fetchFrames_thrown fl1 key F now s Hl). simpl.
    rewrite (fetchFrames_thrown fl2 key F now s); [done|].
    by rewrite Hsame.
Qed.

End PollFacts.

(** * The radar view *)

Section RadarViewFacts.
Import Playback RadarView.

Implicit Types (radarFrames satelliteFrames : list frame) (st : state)
  (v : view) (i k : Z).

Lemma frame_at_in_range radarFrames i :
  0 ≤ i < Z.of_nat (length radarFrames) →
  is_Some (frame_at radarFrames i).
Proof.
  intros Hi. unfold frame_at.
  destruct (Z.ltb_spec i 0) as [|_]; [lia|].
  apply lookup_lt_is_Some. lia.
Qed.

Lemma frame_at_out_of_range radarFrames i :
  i < 0 ∨ Z.of_nat (length radarFrames) ≤ i → frame_at radarFrames i = None.
Proof.
  intros Hi. unfold frame_at.
  destruct (Z.ltb_spec i 0) as [|Hge]; [done|].
  apply lookup_ge_None. lia.
Qed.

(** X8: while playing on a non-empty window of [n] frames, [k] firings of
    the interval take the index [i] to [(i + k) mod n] and leave the view
    playing: the loop has period [n]. *)
Theorem tick_iterated radarFrames i (k : nat) :
  0 ≤ i < Z.of_nat (length radarFrames) →
  Nat.iter k (tick radarFrames) {| currentFrame := i; isPlaying := true |}
  = {| currentFrame := (i + Z.of_nat k) `mod` Z.of_nat (length radarFrames);
       isPlaying := true |}.
Proof.
  intros Hi. induction k as [|k IH].
  - simpl. rewrite Z.add_0_r, Z.mod_small by lia. done.
  - rewrite Nat.iter_succ, IH. unfold tick. cbn zeta. simpl.
    destruct (Z.eqb_spec (Z.of_nat (length radarFrames)) 0) as [|_]; [lia|].
    f_equal. rewrite advance_mod.
    + rewrite Zplus_mod_idemp_l. f_equal. lia.
    + apply Z.mod_pos_bound. lia.
    + lia.
Qed.

(** X9: on a non-empty window and an index in range, the skip buttons
    clamp where the interval wraps: forward stops at the last frame, back
    stops at the first, both keep the index in range and never change
    [isPlaying]; away from the last frame, forward then back returns to the
    same state. *)
Theorem skip_buttons_clamp radarFrames st :
  0 ≤ currentFrame st < Z.of_nat (length radarFrames) →
  0 ≤ currentFrame (skip_forward radarFrames st)
    < Z.of_nat (length radarFrames) ∧
  0 ≤ currentFrame (skip_back st) < Z.of_nat (length radarFrames) ∧
  isPlaying (skip_forward radarFrames st) = isPlaying st ∧
  isPlaying (skip_back st) = isPlaying st ∧
  (currentFrame st = Z.of_nat (length radarFrames) - 1 →
     skip_forward radarFrames st = st) ∧
  (currentFrame st = 0 → skip_back st = st) ∧
  (currentFrame st < Z.of_nat (length radarFrames) - 1 →
     skip_back (skip_forward radarFrames st) = st).
Proof.
  intros Hi. destruct st as [i p]. unfold skip_forward, skip_back.
  simpl in *. repeat split; try lia.
  - intros ->. f_equal. lia.
  - intros ->. f_equal.
  - intros Hlt. f_equal. lia.
Qed.

(** The index of a reachable view is in range whenever the window is not
    empty. *)
Lemma reachable_in_range v :
  reachable v → radarFrames v ≠ [] →
  0 ≤ currentFrame (playback v) < Z.of_nat (length (radarFrames v)).
Proof.
  induction 1 as [|a v Hv IH Ha]; [done|].
  assert (Hlen : ∀ l : list frame, l ≠ [] → 0 < Z.of_nat (length l)).
  { intros [|? ?] ?; simpl; [done|lia]. }
  destruct a as [allFrames| | | | |value]; simpl; intros Hne.
  - specialize (Hlen _ Hne). lia.
  - specialize (IH Hne). specialize (Hlen _ Hne). unfold tick. cbn zeta.
    destruct (negb (isPlaying (playback v)) || _) eqn:E; [done|].
    simpl. rewrite advance_mod by lia. apply Z.mod_pos_bound. lia.
  - by apply IH.
  - specialize (IH Hne). destruct (_ =? 0); [done|]. simpl. lia.
  - specialize (IH Hne). destruct (_ =? _); [done|]. simpl. lia.
  - unfold allowed, slider_range in Ha. lia.
Qed.

(** X10: in every view the component can reach - through polls that replace
    the window, firings of the interval, play/pause, the skip buttons and
    scrubs within the slider's range - a non-empty window has its index in
    range, so the radar tile URL is defined and is the one of the frame at
    that index. *)
Theorem reachable_view_shows_a_frame v :
  reachable v → radarFrames v ≠ [] →
  0 ≤ currentFrame (playback v) < Z.of_nat (length (radarFrames v)) ∧
  ∃ f, radarFrames v !! Z.to_nat (currentFrame (playback v)) = Some f ∧
       currentRadarUrl (radarFrames v) (currentFrame (playback v)) =
         Some ("https://tilecache.rainviewer.com" +:+ path f
               +:+ "/256/{z}/{x}/{y}/4/1_1.png").
Proof.
  intros Hv Hne. pose proof (reachable_in_range v Hv Hne) as Hi.
  split; [done|].
  destruct (frame_at_in_range _ _ Hi) as [f Hf].
  exists f. unfold currentRadarUrl. rewrite Hf. split; [|done].
  unfold frame_at in Hf. destruct (Z.ltb_spec (currentFrame (playback v)) 0);
    [lia|done].
Qed.

(** With no frame loaded the forward button is enabled ([0 !== -1]) and
    takes the index to [-1], where no frame and no URL is found. *)
Example skip_forward_on_empty_window :
  currentFrame (playback (step SkipForward initial)) = -1 ∧
  currentRadarUrl [] (-1) = None.
Proof. split; reflexivity. Qed.

Lemma closer_fold_spec targetTime (first : frame) (rest : list frame) :
  let c := foldl (closer targetTime) first rest in
  c ∈ first :: rest ∧
  ∀ f, f ∈ first :: rest →
       Z.abs (time c - targetTime) ≤ Z.abs (time f - targetTime).
Proof.
  revert first. induction rest as [|x rest IH]; intros first; simpl.
  - split; [left|]. intros f Hf%list_elem_of_singleton. by subst.
  - destruct (IH (closer targetTime first x)) as [Hin Hmin].
    assert (Hc : closer targetTime first x ∈ [first; x] ∧
                 Z.abs (time (closer targetTime first x) - targetTime)
                   ≤ Z.abs (time first - targetTime) ∧
                 Z.abs (time (closer targetTime first x) - targetTime)
                   ≤ Z.abs (time x - targetTime)).
    { unfold closer. destruct (Z.ltb_spec (Z.abs (time x - targetTime))
                                 (Z.abs (time first - targetTime))).
      - split; [right; left|lia].
      - split; [left|lia]. }
    destruct Hc as (Hc & Hc1 & Hc2). split.
    + apply elem_of_cons in Hin as [Heq|Hin].
      * rewrite Heq.
        apply elem_of_cons in Hc as [Hc|Hc%list_elem_of_singleton];
          rewrite Hc; [left|right; left].
      * right. by right.
    + intros f [->|[->|Hf]%elem_of_cons]%elem_of_cons.
      * etrans; [apply Hmin; left|done].
      * etrans; [apply Hmin; left|done].
      * apply Hmin. by right.
Qed.

(** X11: a satellite URL is built exactly when there is a satellite frame
    and a radar frame at the current index, and it is then the URL of a
    satellite frame nearest in time to that radar frame. *)
Theorem currentSatelliteUrl_spec satelliteFrames radarFrames i :
  match currentSatelliteUrl satelliteFrames radarFrames i with
  | None =>
      satelliteFrames = [] ∨ i < 0 ∨ Z.of_nat (length radarFrames) ≤ i
  | Some url =>
      ∃ r c, radarFrames !! Z.to_nat i = Some r ∧ 0 ≤ i ∧
             c ∈ satelliteFrames ∧
             (∀ f, f ∈ satelliteFrames →
                   Z.abs (time c - time r) ≤ Z.abs (time f - time r)) ∧
             url = "https://tilecache.rainviewer.com" +:+ path c
                   +:+ "/256/{z}/{x}/{y}/0/0_0.png"
  end.
Proof.
  unfold currentSatelliteUrl, frame_at.
  destruct (Z.ltb_spec i 0) as [|Hi]; [auto|].
  destruct (radarFrames !! Z.to_nat i) as [r|] eqn:Er.
  - destruct (closest (time r) satelliteFrames) as [c|] eqn:Ec.
    + destruct satelliteFrames as [|first rest]; [done|].
      simpl in Ec. injection Ec as <-.
      destruct (closer_fold_spec (time r) first rest) as [Hc Hmin].
      eexists r, _. eauto.
    + left. by destruct satelliteFrames.
  - right. right. apply lookup_ge_None in Er. lia.
Qed.

End RadarViewFacts.

(** * Alerts *)

Section AlertFacts.
Import Alerts.

Lemma featuresWithGeometry_geometry features f :
  f ∈ featuresWithGeometry features → geometry f = true.
Proof.
  destruct features as [fs|]; simpl.
  - by intros [? _]%list_elem_of_filter.
  - by intros ?%elem_of_nil.
Qed.

(** X12: the alert overlay only ever holds features that carry a geometry:
    if that is true of the collection before a poll (as of the initial
    [null]) it is true after it, whatever the two requests return or
    however they fail. *)
Theorem fetchAlerts_keeps_geometry prev point state fs :
  (∀ fs0, prev = Some fs0 → ∀ f, f ∈ fs0 → geometry f = true) →
  fetchAlerts prev point state = Some fs →
  ∀ f, f ∈ fs → geometry f = true.
Proof.
  intros Hprev. unfold fetchAlerts.
  destruct point as [| |data]; [by apply Hprev..|]. cbn zeta.
  destruct (0 <? length _)%nat.
  - intros [= <-] f. apply featuresWithGeometry_geometry.
  - destruct state as [| |stateData]; [by apply Hprev..|].
    intros [= <-] f. apply featuresWithGeometry_geometry.
Qed.

Lemma lower_char_idemp c : lower_char (lower_char c) = lower_char c.
Proof. destruct c as [[] [] [] [] [] [] [] []]; reflexivity. Qed.

Lemma toLowerCase_idemp s : toLowerCase (toLowerCase s) = toLowerCase s.
Proof.
  induction s as [|c s IH]; [done|]. simpl. by rewrite lower_char_idemp, IH.
Qed.

(** X13: the alert style does not depend on letter case: a feature and the
    same feature with its event and severity in lower case are drawn
    alike. *)
Theorem getAlertStyle_ignores_case f :
  getAlertStyle {| event := toLowerCase <$> event f;
                   severity := toLowerCase <$> severity f;
                   geometry := geometry f |}
  = getAlertStyle f.
Proof.
  unfold getAlertStyle. destruct f as [[e|] [s|] g]; simpl;
    by rewrite ?toLowerCase_idemp.
Qed.

Example getAlertStyle_upper_case_warning :
  getAlertStyle (Feature (Some "Tornado WARNING") (Some "Minor") true)
  = getAlertStyle (Feature (Some "tornado warning") None true) ∧
  weight (getAlertStyle (Feature (Some "Tornado WARNING") None true)) = 2%Z.
Proof. split; reflexivity. Qed.

End AlertFacts.

(** * Weather codes *)

Section WeatherCodeFacts.
Import WeatherCodes.

Lemma includes_true codes code : includes codes code = true ↔ code ∈ codes.
Proof.
  unfold includes. rewrite existsb_exists. split.
  - intros (x & Hx%list_elem_of_In & ->%Z.eqb_eq). done.
  - intros H. exists code. split; [by apply list_elem_of_In|apply Z.eqb_refl].
Qed.

Lemma includes_false codes code : code ∉ codes → includes codes code = false.
Proof.
  intros H. destruct (includes codes code) eqn:E; [|done].
  by apply includes_true in E.
Qed.

Lemma property_None table code :
  code ∉ table.*1 → property table code = None.
Proof.
  induction table as [|[k v] table IH]; [done|]. simpl. intros Hn.
  destruct (Z.eqb_spec k code) as [->|_].
  - exfalso. apply Hn. left.
  - apply IH. intros H. apply Hn. by right.
Qed.

(** Every code a test of the program names. *)
Lemma named_codes code :
  code ∉ [0; 1; 2; 3; 45; 48; 51; 53; 55; 56; 57; 61; 63; 65; 66; 67; 71; 73;
          75; 77; 80; 81; 82; 85; 86; 95; 96; 99] →
  property descriptions code = None ∧
  getWeatherIconFromCode code = Sun ∧
  isSnowy code = false ∧ isRainy code = false ∧
  isRaining code = false ∧ isStormy code = false.
Proof.
  intros Hn.
  assert (Hne : ∀ k, k ∈ [0; 1; 2; 3; 45; 48; 51; 53; 55; 56; 57; 61; 63; 65;
                          66; 67; 71; 73; 75; 77; 80; 81; 82; 85; 86; 95; 96;
                          99] → (code =? k) = false).
  { intros k Hk. apply Z.eqb_neq. by intros ->. }
  split.
  - apply property_None. intros Hin. apply Hn.
    simpl in Hin. revert Hin. rewrite !elem_of_cons, elem_of_nil. tauto.
  - unfold getWeatherIconFromCode, isSnowy, isRainy, isRaining, isStormy,
      includes. simpl.
    rewrite !Hne by (rewrite !elem_of_cons; tauto). done.
Qed.

Ltac each_named_code H :=
  repeat (apply elem_of_cons in H as [->|H]);
  [..|by apply elem_of_nil in H].

Ltac decide_code :=
  vm_compute;
  repeat match goal with
         | |- _ ↔ _ => split
         | |- _ ∧ _ => split
         | |- _ → _ => intros ?
         | H : _ ∧ _ |- _ => destruct H
         | H : _ ∨ _ |- _ => destruct H
         | H : list_elem_of _ (_ :: _) |- _ =>
             apply elem_of_cons in H as [?|H]; [discriminate|]
         | H : _ ∈ _ :: _ |- _ =>
             apply elem_of_cons in H as [?|H]; [discriminate|]
         | H : list_elem_of _ [] |- _ => by apply elem_of_nil in H
         | H : _ ∈ [] |- _ => by apply elem_of_nil in H
         end;
  try done; try discriminate;
  try solve [repeat first [apply list_elem_of_here
                          |apply list_elem_of_further]].

(** X14: the codes that have a description but are drawn with the default
    sun icon are exactly clear sky (0), mainly clear (1) and the three
    drizzle codes (51, 53, 55); every code drawn with another icon has a
    description. *)
Theorem described_codes_with_sun_icon code :
  (getWeatherDescription code ≠ "Unknown"
   ∧ getWeatherIconFromCode code = Sun
   ↔ code ∈ [0; 1; 51; 53; 55]) ∧
  (getWeatherIconFromCode code ≠ Sun →
   getWeatherDescription code ≠ "Unknown").
Proof.
  destruct (decide (code ∈ [0; 1; 2; 3; 45; 48; 51; 53; 55; 56; 57; 61; 63;
                            65; 66; 67; 71; 73; 75; 77; 80; 81; 82; 85; 86;
                            95; 96; 99])) as [Hin|Hn].
  - each_named_code Hin; decide_code.
  - destruct (named_codes code Hn) as (Hd & Hi & _).
    unfold getWeatherDescription. rewrite Hd, Hi. split; [split|done].
    + by intros [? _].
    + intros Hc. exfalso. apply Hn. revert Hc.
      rewrite !elem_of_cons, !elem_of_nil. tauto.
Qed.

(** X15: the code tests of the forecast strips and of the weather brief
    against the icon drawn for the same code: the snow test holds exactly
    for the codes drawn with the snow icon and the storm test exactly for
    those drawn with the lightning icon; the rain icon is drawn without
    [isRaining] holding exactly for freezing rain (66, 67); [isRaining]
    holds without the rain icon exactly for the drizzle codes (51 to 57);
    and the two rain tests differ exactly on freezing drizzle (56, 57). *)
Theorem code_tests_and_icons code :
  (isSnowy code = true ↔ getWeatherIconFromCode code = CloudSnow) ∧
  (isStormy code = true ↔ getWeatherIconFromCode code = CloudLightning) ∧
  (getWeatherIconFromCode code = CloudRain ∧ isRaining code = false
   ↔ code ∈ [66; 67]) ∧
  (isRaining code = true ∧ getWeatherIconFromCode code ≠ CloudRain
   ↔ code ∈ [51; 53; 55; 56; 57]) ∧
  (isRaining code ≠ isRainy code ↔ code ∈ [56; 57]).
Proof.
  destruct (decide (code ∈ [0; 1; 2; 3; 45; 48; 51; 53; 55; 56; 57; 61; 63;
                            65; 66; 67; 71; 73; 75; 77; 80; 81; 82; 85; 86;
                            95; 96; 99])) as [Hin|Hn].
  - each_named_code Hin; decide_code.
  - destruct (named_codes code Hn) as (_ & -> & -> & -> & -> & ->).
    assert (Hsub : ∀ l : list Z,
               (∀ k, k ∈ l → k ∈ [0; 1; 2; 3; 45; 48; 51; 53; 55; 56; 57; 61;
                                   63; 65; 66; 67; 71; 73; 75; 77; 80; 81; 82;
                                   85; 86; 95; 96; 99]) → code ∉ l)
      by (intros l Hl Hc; apply Hn, Hl, Hc).
    repeat match goal with
           | |- _ ∧ _ => split
           | |- _ ↔ _ => split
           end; try done; intros Hc; try (by destruct Hc); exfalso;
      (eapply Hsub; [|exact Hc]); intros k;
      rewrite !elem_of_cons, !elem_of_nil; tauto.
Qed.

End WeatherCodeFacts.

(** * The two air-quality and UV classifiers *)

Section LabelFacts.
Import Levels.
Local Open Scope Q_scope.

Lemma Qeq_bool_cases x b :
  (Qeq_bool x b = true ∧ x == b) ∨ (Qeq_bool x b = false ∧ ¬ x == b).
Proof.
  destruct (Qeq_bool x b) eqn:E.
  - left. split; [done|]. by apply Qeq_bool_iff.
  - right. split; [done|]. intros H%Qeq_bool_iff. congruence.
Qed.

Ltac split_band x b :=
  destruct (Qle_bool_cases x b) as [[-> ?]|[-> ?]].

(** X16: the AQI label of the quick-stats panel and the one of the
    conditions card agree exactly for a non-zero AQI up to 100, above 150 up
    to 200, or above 300: the panel shows "--" for 0 where the card says
    Good, "Unhealthy*" where the card says Unhealthy for Sensitive, and
    Hazardous already above 200 where the card says Very Unhealthy.  The UV
    labels of the two always agree. *)
Theorem quick_stats_labels_against_levels (aqi uv : Q) :
  (QuickStats.label (QuickStats.getAqiLabel (Some aqi))
     = label (getAqiLevel aqi)
   ↔ ¬ aqi == 0 ∧ (aqi <= 100 ∨ (150 < aqi ∧ aqi <= 200) ∨ 300 < aqi)) ∧
  QuickStats.label (QuickStats.getUvLabel uv) = label (getUvLevel uv).
Proof.
  split.
  - unfold QuickStats.getAqiLabel, getAqiLevel.
    destruct (Qeq_bool_cases aqi 0) as [[-> H0]|[-> H0]].
    + split_band aqi 50; [|lra]. simpl. split; [discriminate|].
      intros [Hn _]. by destruct Hn.
    + split_band aqi 50; [simpl; split; [intros _; split; [done|left; lra]|done]|].
      split_band aqi 100; [simpl; split; [intros _; split; [done|left; lra]|done]|].
      split_band aqi 150; [simpl; split; [discriminate|intros [_ ?]; lra]|].
      split_band aqi 200;
        [simpl; split; [intros _; split; [done|right; left; lra]|done]|].
      split_band aqi 300; simpl.
      * split; [discriminate|intros [_ ?]; lra].
      * split; [intros _; split; [done|right; right; lra]|done].
  - unfold QuickStats.getUvLabel, getUvLevel.
    split_band uv 2; [done|]. split_band uv 5; [done|].
    split_band uv 7; [done|]. split_band uv 10; done.
Qed.

End LabelFacts.

(** * The hourly strip *)

Section HourlyStripFacts.
Import Arrays HourlyStrip.

Context {A : Type}.
Implicit Types (p : A → bool) (arr time : list A).

Lemma findIndex_bounds p arr :
  -1 ≤ findIndex p arr < Z.of_nat (length arr).
Proof.
  induction arr as [|x arr IH]; simpl; [lia|].
  destruct (p x); [lia|].
  destruct (Z.ltb_spec (findIndex p arr) 0); lia.
Qed.

Lemma findIndex_none p arr :
  findIndex p arr = -1 ↔ ∀ x, x ∈ arr → p x = false.
Proof.
  induction arr as [|x arr IH]; simpl.
  - split; [by intros _ ? ?%elem_of_nil|done].
  - pose proof (findIndex_bounds p arr) as Hb.
    destruct (p x) eqn:Ex.
    + split; [lia|]. intros Hall. specialize (Hall x). rewrite Ex in Hall.
      discriminate Hall. left.
    + destruct (Z.ltb_spec (findIndex p arr) 0) as [Hlt|Hge].
      * split; [|done]. intros _ y [->|Hy]%elem_of_cons; [done|].
        apply IH; [lia|done].
      * split; [lia|]. intros Hall. assert (findIndex p arr = -1); [|lia].
        apply IH. intros y Hy. apply Hall. by right.
Qed.

Lemma findIndex_found p arr (k : nat) x :
  arr !! k = Some x → p x = true →
  (∀ (j : nat) y, (j < k)%nat → arr !! j = Some y → p y = false) →
  findIndex p arr = Z.of_nat k.
Proof.
  revert k. induction arr as [|a arr IH]; intros k; [done|].
  destruct k as [|k]; simpl.
  - intros [= ->] -> _. done.
  - intros Hk Hx Hbefore.
    assert (Ha : p a = false) by (apply (Hbefore 0%nat a); [lia|done]).
    assert (Hrest : findIndex p arr = Z.of_nat k).
    { apply IH; [done..|]. intros j y Hj Hy.
      apply (Hbefore (S j) y); [lia|done]. }
    rewrite Ha, Hrest.
    destruct (Z.ltb_spec (Z.of_nat k) 0); lia.
Qed.

Lemma slice_from arr (k : nat) (n : nat) :
  slice arr (Z.of_nat k) (Z.of_nat k + Z.of_nat n) = take n (drop k arr).
Proof.
  unfold slice. cbn zeta.
  destruct (Z.ltb_spec (Z.of_nat k) 0); [lia|].
  destruct (Z.ltb_spec (Z.of_nat k + Z.of_nat n) 0); [lia|].
  destruct (decide (k ≤ length arr)%nat) as [Hk|Hk].
  - rewrite (Z.min_l (Z.of_nat k)) by lia. rewrite Nat2Z.id.
    destruct (decide (k + n ≤ length arr)%nat).
    + rewrite Z.min_l by lia. f_equal. lia.
    + rewrite Z.min_r by lia.
      rewrite !take_ge; [done|rewrite length_drop; lia..].
  - rewrite !Z.min_r by lia. rewrite Nat2Z.id, Z.sub_diag.
    change (Z.to_nat 0) with 0%nat. rewrite take_0.
    rewrite (drop_ge arr k) by lia. by rewrite take_nil.
Qed.

(** X17: when some hour of the series matches, the strip shows the (at most)
    24 entries that start at the first matching one, and the entry at
    position [i] of the strip is the entry at position [startIdx + i] of
    the series, the index the strip reads the other series at. *)
Theorem hourly_strip_window p time (k : nat) t :
  time !! k = Some t → p t = true →
  (∀ (j : nat) y, (j < k)%nat → time !! j = Some y → p y = false) →
  startIdx p time = Z.of_nat k ∧
  hours p time = take 24 (drop k time) ∧
  ∀ i : nat, (i < 24)%nat → hours p time !! i = time !! (k + i)%nat.
Proof.
  intros Hk Ht Hbefore.
  assert (Hs : startIdx p time = Z.of_nat k).
  { unfold startIdx. cbn zeta. rewrite (findIndex_found p time k t) by done.
    destruct (Z.eqb_spec (Z.of_nat k) 0); lia. }
  assert (Hh : hours p time = take 24 (drop k time)).
  { unfold hours. rewrite Hs. apply (slice_from time k 24). }
  split; [done|]. split; [done|].
  intros i Hi. rewrite Hh, lookup_take_lt by done. apply lookup_drop.
Qed.

(** X18: when no hour of the series matches, [findIndex] gives [-1], which
    [|| 0] lets through: the strip is then cut from the last entry to index
    23, which is empty for a series of 24 entries or more. *)
Theorem hourly_strip_without_match p time :
  (∀ t, t ∈ time → p t = false) →
  startIdx p time = -1 ∧
  ((24 ≤ length time)%nat → hours p time = []).
Proof.
  intros Hnone. apply findIndex_none in Hnone.
  assert (Hs : startIdx p time = -1).
  { unfold startIdx. cbn zeta. by rewrite Hnone. }
  split; [done|]. intros Hlen. unfold hours, slice. rewrite Hs. cbn zeta.
  change (-1 <? 0) with true. change (-1 + 24 <? 0) with false. cbn iota.
  match goal with
  | |- take ?n _ = _ => replace n with 0%nat by lia
  end.
  apply take_0.
Qed.

End HourlyStripFacts.

Section HourlyLineFacts.
Import Arrays HourlyStrip.
Local Open Scope Q_scope.

(** X19: whatever the division of doubles gives, an hour of the strip shows
    at most one of its three precipitation lines (snow amount, rain amount,
    precipitation probability); an hour whose snow amount in inches, as
    computed, is not zero and is below 0.1 shows none of them, whatever its
    rain amount and precipitation probability; and an hour whose computed
    snow amount is zero shows the rain line from 0.01 inches on and the
    probability line below that when the probability is above 30. *)
Theorem precipitation_lines_exclusive div snowfall precipitation precipProb :
  showSnow (precipitationLines div snowfall precipitation precipProb)
    && showRain (precipitationLines div snowfall precipitation precipProb)
    = false ∧
  showSnow (precipitationLines div snowfall precipitation precipProb)
    && showProb (precipitationLines div snowfall precipitation precipProb)
    = false ∧
  showRain (precipitationLines div snowfall precipitation precipProb)
    && showProb (precipitationLines div snowfall precipitation precipProb)
    = false ∧
  (¬ div (Fusion.or_zero snowfall) 2.54 == 0 →
   div (Fusion.or_zero snowfall) 2.54 < 0.1 →
   precipitationLines div snowfall precipitation precipProb
   = {| showSnow := false; showRain := false; showProb := false |}) ∧
  (div (Fusion.or_zero snowfall) 2.54 == 0 →
   precipitationLines div snowfall precipitation precipProb
   = {| showSnow := false;
        showRain := Qle_bool 0.01 (div (Fusion.or_zero precipitation) 25.4);
        showProb :=
          negb (Qle_bool precipProb 30)
          && negb (Qle_bool 0.01
                     (div (Fusion.or_zero precipitation) 25.4)) |}).
Proof.
  unfold precipitationLines. cbn zeta. simpl.
  set (snowInches := div (Fusion.or_zero snowfall) 2.54).
  set (rainInches := div (Fusion.or_zero precipitation) 25.4).
  split; [|split; [|split; [|split]]].
  - destruct (Qle_bool_cases 0.1 snowInches) as [[-> ?]|[-> ?]]; [|done].
    destruct (Qeq_bool_cases snowInches 0) as [[-> ?]|[-> ?]]; [lra|].
    by rewrite andb_false_r.
  - destruct (Qle_bool_cases 0.1 snowInches) as [[-> ?]|[-> ?]]; [|done].
    destruct (Qeq_bool_cases snowInches 0) as [[-> ?]|[-> ?]]; [lra|].
    by rewrite andb_false_r.
  - destruct (Qle_bool_cases 0.01 rainInches) as [[-> ?]|[-> ?]]; [|done].
    simpl. by rewrite !andb_false_r.
  - intros Hne Hlt.
    destruct (Qle_bool_cases 0.1 snowInches) as [[-> ?]|[-> ?]]; [lra|].
    destruct (Qeq_bool_cases snowInches 0) as [[-> ?]|[-> ?]]; [done|].
    by rewrite !andb_false_r.
  - intros H0.
    destruct (Qle_bool_cases 0.1 snowInches) as [[-> ?]|[-> ?]]; [lra|].
    destruct (Qeq_bool_cases snowInches 0) as [[-> ?]|[-> ?]]; [|done].
    by rewrite !andb_true_r.
Qed.

End HourlyLineFacts.

(** * Twelve-hour clocks *)

Section ClockFacts.
Import Arrays HourlyStrip SatelliteLoop.

Lemma hour_cases (hour : Z) :
  0 ≤ hour ≤ 23 →
  hour ∈ [0; 1; 2; 3; 4; 5; 6; 7; 8; 9; 10; 11; 12; 13; 14; 15; 16; 17; 18;
          19; 20; 21; 22; 23].
Proof. intros H. rewrite !elem_of_cons. lia. Qed.

(** X20: for an hour of the day, the label of the hourly strip is the
    twelve-hour number the satellite loop computes ([hour % 12 || 12])
    followed by [a] before noon and [p] from noon on, where the satellite
    loop says AM and PM; the number is between 1 and 12, and the hour is
    recovered from the number and the half of the day. *)
Theorem twelve_hour_labels (hour : Z) :
  0 ≤ hour ≤ 23 →
  hourLabel false hour
    = string_of_Z (hour12 hour) +:+ (if hour <? 12 then "a" else "p") ∧
  ampm hour = (if hour <? 12 then "AM" else "PM") ∧
  1 ≤ hour12 hour ≤ 12 ∧
  hour = hour12 hour `mod` 12 + (if hour <? 12 then 0 else 12).
Proof.
  intros Hh%hour_cases.
  repeat (apply elem_of_cons in Hh as [->|Hh]);
    [..|by apply elem_of_nil in Hh]; vm_compute; by intuition.
Qed.

End ClockFacts.

(** * The forecast calendar *)

Section CalendarFacts.
Import CalendarMonth.

Implicit Types (days : list forecastDay) (result : list (list cell))
  (currentWeek : list cell).

Lemma push_days_spec days result currentWeek :
  (length currentWeek < 7)%nat → Forall (λ w, length w = 7%nat) result →
  Forall (λ w, length w = 7%nat) (foldl push_day (result, currentWeek) days).1
  ∧ (length (foldl push_day (result, currentWeek) days).2 < 7)%nat
  ∧ concat (foldl push_day (result, currentWeek) days).1
      ++ (foldl push_day (result, currentWeek) days).2
    = concat result ++ currentWeek ++ (Some <$> days).
Proof.
  revert result currentWeek.
  induction days as [|day days IH]; intros result currentWeek Hlt Hall.
  - simpl. by rewrite app_nil_r.
  - simpl foldl.
    replace (push_day (result, currentWeek) day)
      with (if (length (currentWeek ++ [Some day]) =? 7)%nat
            then (result ++ [currentWeek ++ [Some day]], [])
            else (result, currentWeek ++ [Some day])) by done.
    destruct (Nat.eqb_spec (length (currentWeek ++ [Some day])) 7) as [H7|H7].
    + destruct (IH (result ++ [currentWeek ++ [Some day]]) []) as (H1 & H2 & H3).
      * simpl. lia.
      * apply Forall_app. split; [done|]. by repeat constructor.
      * split; [done|]. split; [done|]. rewrite H3.
        rewrite concat_app. simpl. rewrite app_nil_r, <-!app_assoc. done.
    + rewrite length_app in H7. simpl in H7.
      destruct (IH result (currentWeek ++ [Some day])) as (H1 & H2 & H3).
      * rewrite length_app. simpl. lia.
      * done.
      * split; [done|]. split; [done|]. rewrite H3.
        by rewrite <-!app_assoc.
Qed.

Lemma weeks_grid first rest :
  (dayOfWeek first ≤ 6)%nat →
  Forall (λ w, length w = 7%nat) (weeks (first :: rest)) ∧
  ∃ pad : nat, (pad < 7)%nat ∧
    concat (weeks (first :: rest))
    = replicate (dayOfWeek first) None ++ (Some <$> first :: rest)
      ++ replicate pad None.
Proof.
  intros Hd. unfold weeks. cbn zeta.
  destruct (push_days_spec (first :: rest) []
              (replicate (dayOfWeek first) None)) as (H1 & H2 & H3).
  { rewrite length_replicate. lia. }
  { constructor. }
  simpl concat in H3 at 2. rewrite app_nil_l in H3.
  match goal with
  | |- context [foldl push_day ?a ?b] =>
      remember (foldl push_day a b) as st eqn:Hst
  end.
  assert (H1' : Forall (λ w : list cell, length w = 7%nat) st.1)
    by (rewrite Hst; exact H1).
  assert (H2' : (length st.2 < 7)%nat) by (rewrite Hst; exact H2).
  assert (H3' : concat st.1 ++ st.2
                = replicate (dayOfWeek first) None ++ (Some <$> first :: rest))
    by (rewrite Hst; exact H3).
  clear H1 H2 H3 Hst. rename H1' into H1, H2' into H2, H3' into H3.
  destruct (Nat.ltb_spec 0 (length st.2)) as [Hpos|Hzero].
  - split.
    + apply Forall_app. split; [done|]. repeat constructor.
      rewrite length_app, length_replicate. lia.
    + exists (7 - length st.2)%nat. split; [lia|].
      rewrite concat_app. simpl.
      rewrite app_nil_r, (app_assoc (concat st.1)), H3, <-app_assoc. done.
  - split; [done|]. exists 0%nat. split; [lia|].
    assert (st.2 = []) as Hnil by (apply length_zero_iff_nil; lia).
    rewrite Hnil, app_nil_r in H3. simpl. by rewrite app_nil_r.
Qed.

(** X21: the calendar grid has rows of exactly seven cells, and read row by
    row it is the empty cells before the first day (as many as its day of
    the week), then every forecast day once and in order, then fewer than
    seven empty cells. *)
Theorem calendar_weeks_grid first rest :
  (dayOfWeek first ≤ 6)%nat →
  Forall (λ w, length w = 7%nat) (weeks (first :: rest)) ∧
  ∃ pad : nat, (pad < 7)%nat ∧
    concat (weeks (first :: rest))
    = replicate (dayOfWeek first) None ++ (Some <$> first :: rest)
      ++ replicate pad None.
Proof. apply weeks_grid. Qed.

Lemma concat_lookup_rows {B} (rows : list (list B)) (n i j : nat) :
  Forall (λ w, length w = n) rows → (j < n)%nat →
  concat rows !! (i * n + j)%nat = rows !! i ≫= (.!! j).
Proof.
  intros Hall Hj. revert i.
  induction Hall as [|w rows Hw Hrows IH]; intros i; [done|].
  destruct i as [|i]; simpl.
  - apply lookup_app_l. lia.
  - rewrite lookup_app_r by lia.
    replace (n + i * n + j - length w)%nat with (i * n + j)%nat by lia.
    apply IH.
Qed.

(** X22: the forecast day number [k] sits in row [(d + k) / 7] and column
    [(d + k) mod 7] of the grid, where [d] is the day of the week of the
    first day: consecutive days fall under consecutive week-day headers. *)
Theorem calendar_day_position first rest (k : nat) day :
  (dayOfWeek first ≤ 6)%nat →
  (first :: rest) !! k = Some day →
  ∃ row, weeks (first :: rest) !! ((dayOfWeek first + k) / 7)%nat = Some row ∧
         row !! ((dayOfWeek first + k) mod 7)%nat = Some (Some day).
Proof.
  intros Hd Hk. destruct (weeks_grid first rest Hd) as (Hrows & pad & _ & Hc).
  assert (Hpos : concat (weeks (first :: rest)) !! (dayOfWeek first + k)%nat
                 = Some (Some day)).
  { rewrite Hc, lookup_app_r by (rewrite length_replicate; lia).
    rewrite length_replicate.
    replace (dayOfWeek first + k - dayOfWeek first)%nat with k by lia.
    rewrite lookup_app_l by (rewrite length_fmap; by eapply lookup_lt_Some).
    by rewrite list_lookup_fmap, Hk. }
  rewrite (Nat.div_mod_eq (dayOfWeek first + k) 7) in Hpos at 1.
  rewrite (Nat.mul_comm 7) in Hpos.
  rewrite (concat_lookup_rows _ 7) in Hpos;
    [|done|apply Nat.mod_upper_bound; lia].
  match type of Hpos with
  | ?o ≫= _ = _ => destruct o as [row|] eqn:Erow
  end; simpl in Hpos; [|discriminate Hpos].
  exists row. split; [exact Erow|exact Hpos].
Qed.

End CalendarFacts.

(** * The weather brief *)

Section BriefFacts.
Import WeatherCodes WeatherBrief.
Local Open Scope Q_scope.

Implicit Types (d : inputs).

Lemma elem_of_push_if {B} (c : bool) (x y : B) :
  x ∈ push_if c y ↔ c = true ∧ x = y.
Proof.
  destruct c; simpl.
  - rewrite list_elem_of_singleton. split; [by intros ->|by intros [_ ->]].
  - rewrite elem_of_nil. split; [done|by intros [? _]].
Qed.

(** X23: what the brief tells to bring is a selection, in this order and
    without repeats, of umbrella, waterproof boots, sunscreen, sunglasses
    and water bottle; and whenever it names sunscreen it names sunglasses
    too. *)
Theorem bring_list d :
  bring d `sublist_of`
    ["Umbrella"; "Waterproof boots"; "Sunscreen"; "Sunglasses";
     "Water bottle"]%string ∧
  ("Sunscreen"%string ∈ bring d → "Sunglasses"%string ∈ bring d).
Proof.
  unfold bring. split.
  - repeat match goal with
           | |- context [push_if ?c _] => destruct c; simpl push_if
           end; simpl;
      repeat first [apply sublist_nil | apply sublist_skip | apply sublist_cons].
  - rewrite !elem_of_app, !elem_of_push_if.
    intros [[_ [=]]|[[_ [=]]|[[H6 _]|[[_ [=]]|[_ [=]]]]]].
    right. right. right. left. split; [|done].
    apply Qle_bool_iff in H6. apply Qle_bool_iff. lra.
Qed.

Lemma storm_warning_only d w :
  w ∈ storm_warning d ↔ isStormy (weather_code d) = true ∧ w = Thunderstorms.
Proof. apply elem_of_push_if. Qed.

(** The thunderstorm warning is in the list exactly when the code is a
    storm code. *)
Lemma thunderstorms_warned d :
  Thunderstorms ∈ warnings d ↔ isStormy (weather_code d) = true.
Proof.
  unfold warnings. rewrite !elem_of_app, storm_warning_only.
  unfold feels_like_warning, snow_warning, wind_warning, visibility_warning,
    air_warning, uv_warning, push_if.
  split; [|by auto].
  intros [H|[H|[[H _]|[H|[H|[H|H]]]]]]; [| |done|..];
    exfalso; revert H; repeat case_match;
    rewrite ?list_elem_of_singleton, ?elem_of_nil; done.
Qed.

Lemma umbrella_brought d :
  "Umbrella"%string ∈ bring d ↔
  (isRaining (weather_code d) || Qle_bool 50 (precipProb d)) = true.
Proof.
  unfold bring. rewrite !elem_of_app, !elem_of_push_if. split.
  - intros [[H _]|[[_ [=]]|[[_ [=]]|[[_ [=]]|[_ [=]]]]]]. done.
  - intros H. by left.
Qed.

(** X24: the headline agrees with the advice below it: the storm headline
    is shown exactly for a storm code and comes with the thunderstorm
    warning; the snow-day headline comes with waterproof boots and one of
    the two stronger snow warnings; the two rain headlines come with the
    umbrella; and the beautiful-day headline never comes with the umbrella,
    the thunderstorm warning or the frostbite warning. *)
Theorem headline_agrees_with_advice d :
  (brief_headline d = Storms ↔ isStormy (weather_code d) = true) ∧
  (brief_headline d = Storms → Thunderstorms ∈ warnings d) ∧
  (brief_headline d = SnowDay →
     "Waterproof boots"%string ∈ bring d ∧
     (SnowHazard (snowfall d) ∈ warnings d
      ∨ SnowExtraTime (snowfall d) ∈ warnings d)) ∧
  (brief_headline d = RainyDay ∨ brief_headline d = RainLikely →
     "Umbrella"%string ∈ bring d) ∧
  (brief_headline d = Beautiful →
     ("Umbrella"%string ∉ bring d) ∧ (Thunderstorms ∉ warnings d) ∧
     (Frostbite (feelsLike d) ∉ warnings d)).
Proof.
  rewrite thunderstorms_warned, umbrella_brought.
  unfold brief_headline.
  destruct (isStormy (weather_code d)) eqn:Estorm.
  { repeat split; try done. by intros [?|?]. }
  destruct (Qle_bool_cases 4 (snowfall d)) as [[-> Hs]|[-> Hs]].
  { repeat split; try done; [| |by intros [?|?]].
    - unfold bring. rewrite !elem_of_app, !elem_of_push_if.
      right. left. split; [|done].
      destruct (Qle_bool_cases (snowfall d) 0) as [[_ ?]|[-> _]]; [lra|].
      apply orb_true_r.
    - unfold warnings, snow_warning. rewrite !elem_of_app.
      destruct (Qle_bool_cases 6 (snowfall d)) as [[-> ?]|[-> ?]].
      + left. right. left. apply list_elem_of_here.
      + destruct (Qle_bool_cases 2 (snowfall d)) as [[-> ?]|[-> ?]]; [|lra].
        right. right. left. apply list_elem_of_here. }
  destruct (feelsLike d <=? 10)%Z eqn:E10.
  { repeat split; try done. by intros [?|?]. }
  destruct (feelsLike d <=? 32)%Z eqn:E32.
  { repeat split; try done. by intros [?|?]. }
  destruct (95 <=? temp d)%Z eqn:E95.
  { repeat split; try done. by intros [?|?]. }
  destruct (isRaining (weather_code d)) eqn:Erain.
  { repeat split; try done. }
  destruct (Qle_bool_cases 70 (precipProb d)) as [[-> Hp]|[-> Hp]].
  { repeat split; try done. intros _. simpl.
    apply Qle_bool_iff. lra. }
  destruct ((70 <=? temp d)%Z && (temp d <=? 80)%Z
            && negb (Qle_bool 30 (precipProb d))
            && negb (Qle_bool 8 (uvIndex d))) eqn:Enice.
  - repeat split; try done; [by intros [?|?]| |].
    + simpl. intros H50%Qle_bool_iff.
      apply andb_prop in Enice as [Enice _].
      apply andb_prop in Enice as [_ E30]. apply negb_true_iff in E30.
      destruct (Qle_bool_cases 30 (precipProb d)) as [[? _]|[_ ?]];
        [congruence|lra].
    + unfold warnings, feels_like_warning. rewrite !elem_of_app.
      rewrite Z.leb_gt in E10.
      destruct (Z.leb_spec (feelsLike d) 0) as [|_]; [lia|].
      intros [Hw|[Hw|[Hw|[Hw|[Hw|[Hw|Hw]]]]]]; revert Hw;
        unfold snow_warning, storm_warning, wind_warning, visibility_warning,
          air_warning, uv_warning, push_if;
        repeat case_match;
        rewrite ?list_elem_of_singleton, ?elem_of_nil; done.
  - repeat split; try done. by intros [?|?].
Qed.

End BriefFacts.

(** * The snow chart and the fused series *)

Section ChartFacts.
Import Fusion SnowChart.
Local Open Scope Q_scope.

Lemma foldl_Math_max_upper (x : Q) (rest : list Q) :
  x <= foldl Math_max x rest ∧
  ∀ y, y ∈ rest → y <= foldl Math_max x rest.
Proof.
  revert x. induction rest as [|z rest IH]; intros x; simpl.
  - split; [lra|]. by intros y ?%elem_of_nil.
  - destruct (IH (Math_max x z)) as [H1 H2].
    destruct (Math_max_upper x z) as [Hx Hz]. split; [lra|].
    intros y [->|Hy]%elem_of_cons; [lra|by apply H2].
Qed.

Lemma maxSnow_upper (xs : list Q) :
  0.2 <= maxSnow xs ∧ ∀ y, y ∈ xs → y <= maxSnow xs.
Proof.
  unfold maxSnow, Math_max_spread.
  destruct xs as [|x xs]; simpl.
  - split; [lra|]. by intros y ?%elem_of_nil.
  - destruct (foldl_Math_max_upper x (xs ++ [0.2])) as [H1 H2]. split.
    + apply H2. rewrite elem_of_app, list_elem_of_singleton. by right.
    + intros y [->|Hy]%elem_of_cons; [done|].
      apply H2. rewrite elem_of_app. by left.
Qed.

(** X25: in the snow chart every bar of a non-negative hourly value is
    between 0% and 100% of the chart height; an hour with snow gets at
    least 5%, so it is never invisible, and an hour without snow gets
    nothing. *)
Theorem snow_bars_within_chart (snowfall : list Q) (snow : Q) :
  snow ∈ snowfall → 0 <= snow →
  0 <= bar (maxSnow snowfall) snow <= 100 ∧
  (0 < snow → 5 <= bar (maxSnow snowfall) snow) ∧
  (snow == 0 → bar (maxSnow snowfall) snow == 0).
Proof.
  intros Hin Hpos. destruct (maxSnow_upper snowfall) as [Hmin Hmax].
  specialize (Hmax snow Hin). set (m := maxSnow snowfall) in *.
  assert (Hm : 0 < m) by lra.
  assert (Hlo : 0 <= snow / m * 100).
  { apply Qmult_le_0_compat; [|lra]. apply Qle_shift_div_l; lra. }
  assert (Hhi : snow / m * 100 <= 100).
  { assert (snow / m <= 1) by (apply Qle_shift_div_r; lra). lra. }
  unfold bar. cbn zeta.
  destruct (Qle_bool_cases snow 0) as [[-> H0]|[-> H0]]; simpl negb; cbn iota.
  - assert (Hz : snow == 0) by lra.
    assert (Hh : snow / m * 100 == 0) by (rewrite Hz; field; lra).
    destruct (Math_max_choice (snow / m * 100) 0) as [->| ->];
      repeat split; intros; lra.
  - destruct (Math_max_upper (snow / m * 100) 5) as [H1 H2].
    destruct (Math_max_choice (snow / m * 100) 5) as [E|E];
      rewrite E in *; repeat split; intros; lra.
Qed.

(** X26: the fused snowfall never undercuts either model: at an index where
    GFS has the value [p] the fused value is at least [p] and at least the
    GEM value when GEM has one; and it is [p], the GEM value or zero. *)
Theorem fuse_dominates (gfs gem : list elem) (i : nat) (p : Q) :
  gfs !! i = Some (Some p) →
  ∃ m, fuse gfs gem !! i = Some m ∧ p <= m ∧
       (∀ s, gem !! i = Some (Some s) → s <= m) ∧
       (m = p ∨ m = 0 ∨ gem !! i = Some (Some m)).
Proof.
  intros Hp.
  assert (Hf : fuse gfs gem !! i = Some (Math_max p (or_zero (gem !! i))))
    by (rewrite fuse_lookup; unfold elem in *; by rewrite Hp).
  exists (Math_max p (or_zero (gem !! i))). split; [done|].
  destruct (Math_max_upper p (or_zero (gem !! i))) as [H1 H2].
  split; [done|]. split.
  - intros s Hs.
    assert (Hz : or_zero (gem !! i) == s)
      by (unfold elem in *; rewrite Hs; apply or_zero_number).
    lra.
  - destruct (Math_max_choice p (or_zero (gem !! i))) as [->| ->]; [by left|].
    right. destruct (gem !! i) as [[s|]|]; simpl; [|by left..].
    destruct (Qeq_bool s 0); [by left|by right].
Qed.

End ChartFacts.

(** * The further properties at concrete inputs *)

Section FurtherWitnesses.
Import FrameCache Timeline Storage Playback RadarView Alerts Arrays
  HourlyStrip SatelliteLoop CalendarMonth.

(** X2 at a concrete input. *)
Lemma merge_empty_fresh_keeps_window_witness :
  merge [Frame 100 "/v2/radar/100"; Frame 200 "/v2/radar/200"] [] 300
        MAX_AGE_SECONDS
  = [Frame 100 "/v2/radar/100"; Frame 200 "/v2/radar/200"].
Proof.
  apply merge_empty_fresh_keeps_window.
  - repeat constructor.
  - intros f Hf. repeat (apply elem_of_cons in Hf as [->|Hf]);
      [vm_compute; discriminate..|by apply elem_of_nil in Hf].
Defined.

(** X3 at a concrete input. *)
Lemma merge_cold_start_witness :
  merge [] [Frame 100 "/v2/radar/100"; Frame 200 "/v2/radar/200"] 100000
        MAX_AGE_SECONDS
  = [Frame 100 "/v2/radar/100"; Frame 200 "/v2/radar/200"].
Proof. apply merge_cold_start. repeat constructor. Defined.

(** X4 at a concrete input. *)
Lemma merge_all_expired_witness :
  merge [Frame 100 "/v2/radar/100"; Frame 200 "/v2/radar/200"] [] 100000
        MAX_AGE_SECONDS
  = [].
Proof.
  apply merge_all_expired.
  intros f Hf. repeat (apply elem_of_cons in Hf as [->|Hf]);
    [vm_compute; reflexivity..|by apply elem_of_nil in Hf].
Defined.

(** X6 at a concrete input. *)
Lemma fetchFrames_round_trip_witness :
  read_cache (Faults false false false) CACHE_KEY_full
    (fetchFrames (Faults false false false) CACHE_KEY_full
       [Frame 300 "/v2/radar/300"; Frame 500 "/v2/radar/nowcast_500"] 400
       {[ MiniRadar.CACHE_KEY := Serialized [Frame 200 "/v2/radar/200"] ]}).2
  = (Returned
       (persisted [Frame 300 "/v2/radar/300";
                   Frame 500 "/v2/radar/nowcast_500"] 400),
     (fetchFrames (Faults false false false) CACHE_KEY_full
        [Frame 300 "/v2/radar/300"; Frame 500 "/v2/radar/nowcast_500"] 400
        {[ MiniRadar.CACHE_KEY := Serialized [Frame 200 "/v2/radar/200"] ]}).2)
  ∧
  (fetchFrames (Faults false false false) CACHE_KEY_full
     [Frame 300 "/v2/radar/300"; Frame 500 "/v2/radar/nowcast_500"] 400
     {[ MiniRadar.CACHE_KEY := Serialized [Frame 200 "/v2/radar/200"] ]}).2
    !! MiniRadar.CACHE_KEY
  = Some (Serialized [Frame 200 "/v2/radar/200"]).
Proof.
  destruct (fetchFrames_round_trip (Faults false false false) CACHE_KEY_full
              [Frame 300 "/v2/radar/300"; Frame 500 "/v2/radar/nowcast_500"]
              400
              {[ MiniRadar.CACHE_KEY :=
                   Serialized [Frame 200 "/v2/radar/200"] ]})
    as [Hother Hload].
  split.
  - apply Hload; [reflexivity..|]. vm_compute. reflexivity.
  - rewrite Hother by discriminate. apply lookup_singleton_eq.
Defined.

(** X7 at a cache of one past frame, with the write failing in the second
    poll only. *)
Lemma fetchFrames_repeat_witness :
  (fetchFrames (Faults false false true) CACHE_KEY_full
     [Frame 300 "/v2/radar/300"] 400
     (fetchFrames (Faults false false false) CACHE_KEY_full
        [Frame 300 "/v2/radar/300"] 400
        {[ CACHE_KEY_full := Serialized [Frame 100 "/v2/radar/100"] ]}).2).1
  = (fetchFrames (Faults false false false) CACHE_KEY_full
       [Frame 300 "/v2/radar/300"] 400
       {[ CACHE_KEY_full := Serialized [Frame 100 "/v2/radar/100"] ]}).1.
Proof.
  apply fetchFrames_repeat.
  - reflexivity.
  - intros elems Hk f Hf. rewrite lookup_singleton_eq in Hk.
    injection Hk as <-. apply list_elem_of_singleton in Hf.
    injection Hf as ->. vm_compute. discriminate.
Defined.

(** X8 at a concrete input. *)
Lemma tick_iterated_witness :
  Nat.iter 7 (tick (replicate 5 (Frame 0 "")))
    {| currentFrame := 2; isPlaying := true |}
  = {| currentFrame := 4; isPlaying := true |}.
Proof.
  apply (tick_iterated (replicate 5 (Frame 0 "")) 2 7). simpl. lia.
Defined.

(** X9 at a concrete input. *)
Lemma skip_buttons_clamp_witness :
  skip_forward (replicate 5 (Frame 0 ""))
    {| currentFrame := 4; isPlaying := true |}
  = {| currentFrame := 4; isPlaying := true |}.
Proof.
  destruct (skip_buttons_clamp (replicate 5 (Frame 0 ""))
              {| currentFrame := 4; isPlaying := true |})
    as (_ & _ & _ & _ & Hlast & _).
  - simpl. lia.
  - apply Hlast. reflexivity.
Defined.

(** X10 at a concrete input. *)
Lemma reachable_view_shows_a_frame_witness :
  ∃ f, [Frame 100 "/v2/radar/100"; Frame 200 "/v2/radar/200"] !! 1%nat
       = Some f ∧
       currentRadarUrl [Frame 100 "/v2/radar/100"; Frame 200 "/v2/radar/200"]
                       1
       = Some ("https://tilecache.rainviewer.com" +:+ path f
               +:+ "/256/{z}/{x}/{y}/4/1_1.png").
Proof.
  destruct (reachable_view_shows_a_frame
              (step Tick
                 (step TogglePlay
                    (step (Refresh [Frame 100 "/v2/radar/100";
                                    Frame 200 "/v2/radar/200"])
                          initial))))
    as [_ Hurl].
  - repeat (apply reachable_step; [|exact I]). apply reachable_initial.
  - discriminate.
  - exact Hurl.
Defined.

(** X12 at a concrete input. *)
Lemma fetchAlerts_keeps_geometry_witness :
  Forall (λ f, geometry f = true)
    (default []
       (fetchAlerts None
          (Ok (Some [Feature (Some "Winter Storm Warning") (Some "Severe")
                       true;
                     Feature (Some "Special Weather Statement") None false]))
          Throws)).
Proof.
  apply Forall_forall.
  apply (fetchAlerts_keeps_geometry None
           (Ok (Some [Feature (Some "Winter Storm Warning") (Some "Severe")
                        true;
                      Feature (Some "Special Weather Statement") None false]))
           Throws).
  - discriminate.
  - reflexivity.
Defined.

(** X17 at a concrete input. *)
Lemma hourly_strip_window_witness :
  startIdx (λ t, 14 <=? t) [12; 13; 14; 15; 16] = 2 ∧
  hours (λ t, 14 <=? t) [12; 13; 14; 15; 16] = take 24 (drop 2 [12; 13; 14; 15; 16]) ∧
  ∀ i : nat, (i < 24)%nat →
    hours (λ t, 14 <=? t) [12; 13; 14; 15; 16] !! i
    = [12; 13; 14; 15; 16] !! (2 + i)%nat.
Proof.
  apply (hourly_strip_window (λ t, 14 <=? t) [12; 13; 14; 15; 16] 2 14).
  - reflexivity.
  - reflexivity.
  - intros [|[|j]] y Hj Hy; [by injection Hy as <-..|lia].
Defined.

(** X18 at a concrete input. *)
Lemma hourly_strip_without_match_witness :
  startIdx (λ t, 99 <=? t) (replicate 24 0) = -1 ∧
  hours (λ t, 99 <=? t) (replicate 24 0) = [].
Proof.
  destruct (hourly_strip_without_match (λ t, 99 <=? t) (replicate 24 0))
    as [Hs Hh].
  - intros t [-> _]%elem_of_replicate. reflexivity.
  - split; [exact Hs|]. apply Hh. simpl. lia.
Defined.

(** X20 at a concrete input. *)
Lemma twelve_hour_labels_witness :
  hourLabel false 13 = "1p" ∧ ampm 13 = "PM" ∧ hour12 13 = 1.
Proof.
  destruct (twelve_hour_labels 13) as (Hl & Ha & _ & _); [lia|].
  rewrite Hl, Ha. repeat split.
Defined.

(** X21 at a concrete input. *)
Lemma calendar_weeks_grid_witness :
  Forall (λ w, length w = 7%nat)
    (weeks [ForecastDay "2026-01-23" 5 23 "Jan" true 71 30 20 1.2;
            ForecastDay "2026-01-24" 6 24 "Jan" false 3 34 22 0;
            ForecastDay "2026-01-25" 0 25 "Jan" false 0 36 25 0]).
Proof.
  apply (calendar_weeks_grid
           (ForecastDay "2026-01-23" 5 23 "Jan" true 71 30 20 1.2)
           [ForecastDay "2026-01-24" 6 24 "Jan" false 3 34 22 0;
            ForecastDay "2026-01-25" 0 25 "Jan" false 0 36 25 0]).
  simpl. lia.
Defined.

(** X22 at a concrete input. *)
Lemma calendar_day_position_witness :
  ∃ row,
    weeks [ForecastDay "2026-01-23" 5 23 "Jan" true 71 30 20 1.2;
           ForecastDay "2026-01-24" 6 24 "Jan" false 3 34 22 0;
           ForecastDay "2026-01-25" 0 25 "Jan" false 0 36 25 0] !! 1%nat
    = Some row ∧
    row !! 0%nat
    = Some (Some (ForecastDay "2026-01-25" 0 25 "Jan" false 0 36 25 0)).
Proof.
  apply (calendar_day_position
           (ForecastDay "2026-01-23" 5 23 "Jan" true 71 30 20 1.2)
           [ForecastDay "2026-01-24" 6 24 "Jan" false 3 34 22 0;
            ForecastDay "2026-01-25" 0 25 "Jan" false 0 36 25 0] 2).
  - simpl. lia.
  - reflexivity.
Defined.

(** X25 at a concrete input. *)
Lemma snow_bars_within_chart_witness :
  (0 <= SnowChart.bar (SnowChart.maxSnow [0; 0.5; 0.1]) 0.1 <= 100)%Q.
Proof.
  apply (snow_bars_within_chart [0; 0.5; 0.1] 0.1)%Q.
  - apply list_elem_of_further, list_elem_of_further, list_elem_of_here.
  - discriminate.
Defined.

(** X26 at a concrete input. *)
Lemma fuse_dominates_witness :
  ∃ m, Fusion.fuse [Some 1%Q; Some 2%Q; Some 3%Q] [Some 5%Q; Some 0%Q]
         !! 0%nat = Some m ∧
       (1 <= m)%Q ∧
       (∀ s, [Some 5%Q; Some 0%Q] !! 0%nat = Some (Some s) → (s <= m)%Q) ∧
       (m = 1%Q ∨ m = 0%Q ∨ [Some 5%Q; Some 0%Q] !! 0%nat = Some (Some m)).
Proof.
  apply (fuse_dominates [Some 1%Q; Some 2%Q; Some 3%Q] [Some 5%Q; Some 0%Q]
           0 1%Q).
  reflexivity.
Defined.

End FurtherWitnesses.
